(** * DrugWeave: drug-protein affinity prediction

    A shallow embedding of the notebook
    [drug_affinity_prediction_using_neural_networks.ipynb]:
    the string encoder [encode_sequences], the protein-aware splitter
    [train_test_split_proteins], the network [DrugProteinNN] and the
    evaluator [evaluate_model_with_metrics].

    Conventions of the embedding.
    - A Python [str] is a [string]; iterating over it yields its [ascii]
      characters and [len] is [String.length].
    - A Python [int] is a [Z] (or a [nat] where it is a length or a position).
    - A Python exception is a value [Raise e] of the type [result]; a call
      that raises aborts the enclosing function ([mbind] of [result]).
    - A pandas [DataFrame] is the list of its rows in order, each with its
      index label; the label is what [drop] and [concat] work with.
    - A Python [dict] is a [gmap], a Python [set] is a [gset]. *)

From Stdlib Require Import ZArith QArith Qround Qabs Qpower Reals Lia Lra Lqa.
From Stdlib Require Import Ascii String SpecFloat.
From stdpp Require Import gmap strings list sorting.

Set Default Proof Using "Type".

(** ** Exceptions *)

Inductive exn : Type :=
  | ValueError
  | TypeError
  | IndexError
  | KeyError
  | RuntimeError
  | ZeroDivisionError.

Inductive result (A : Type) : Type :=
  | Ok (a : A)
  | Raise (e : exn).
Arguments Ok {A} a.
Arguments Raise {A} e.

Global Instance result_ret : MRet result := λ A a, Ok a.
Global Instance result_bind : MBind result := λ A B f r,
  match r with
  | Ok a => f a
  | Raise e => Raise e
  end.
Global Instance result_fmap : FMap result := λ A B f r,
  match r with
  | Ok a => Ok (f a)
  | Raise e => Raise e
  end.

Definition raises {A} (r : result A) : Prop := ∃ e, r = Raise e.

(** ** Data model *)

(** One line of the input file, as [load_kiba_dataset] names its columns. *)
Record Row : Type := {
  Drug : string;
  Protein : string;
  SMILES : string;
  Sequence : string;
  Affinity : Q
}.

(** A row after [encode_sequences] has added its two columns. *)
Record EncRow : Type := {
  sample : Row;
  Encoded_Sequence : list Z;
  Encoded_SMILES : list Z
}.

(** Rows in order, each with its index label. *)
Abbreviation DataFrame A := (list (nat * A)).

Definition column {A B} (f : A → B) (df : DataFrame A) : list B :=
  (λ ir, f ir.2) <$> df.

Definition index {A} (df : DataFrame A) : list nat := fst <$> df.

(** ** Encoding: [encode_sequences] *)

Module Encoder.

Definition chars (s : string) : list ascii := String.list_ascii_of_string s.

Definition len (s : string) : nat := String.length s.

(** [amino_acids = list("ACDEFGHIKLMNPQRSTVWY")] *)
Definition amino_acids : list ascii := chars "ACDEFGHIKLMNPQRSTVWY".

(** [{c: i+1 for i, c in enumerate(l)}]: the comprehension inserts the
    pairs in order, a later pair overwriting an earlier one with the same
    key. *)
Definition enumerate {A} (l : list A) : list (nat * A) := imap pair l.

Definition dict_of_enumerate (l : list ascii) : gmap ascii Z :=
  foldl (λ d ic, <[ic.2 := (Z.of_nat ic.1 + 1)%Z]> d) ∅ (enumerate l).

Definition aa_to_num : gmap ascii Z := dict_of_enumerate amino_acids.

(** [d.get(c, 0)] *)
Definition get0 (d : gmap ascii Z) (c : ascii) : Z := default 0%Z (d !! c).

(** The body of both lambdas:
    [[d.get(c, 0) for c in s] + [0] * (max_len - len(s))].
    The difference is a Python int and may be negative; a list times a
    negative int is the empty list. *)
Definition encode_string (d : gmap ascii Z) (max_len : nat) (s : string) : list Z :=
  (get0 d <$> chars s)
  ++ replicate (Z.to_nat (Z.of_nat max_len - Z.of_nat (len s))) 0%Z.

(** Python's [max] over a sequence: raises on the empty one. *)
Definition py_max (l : list nat) : result nat :=
  match l with
  | [] => Raise ValueError
  | x :: l' => Ok (foldl Nat.max x l')
  end.

(** [set("".join(df['SMILES']))] *)
Definition char_set (df : DataFrame Row) : gset ascii :=
  list_to_set (mjoin (chars <$> column SMILES df)).

Section WithSetOrder.
(** The order in which Python iterates over a set of characters is not
    fixed by the language; the encoder is modelled for any order. *)
Variable set_iter : gset ascii → list ascii.
Hypothesis set_iter_perm : ∀ s, set_iter s ≡ₚ elements s.

Definition char_to_num (df : DataFrame Row) : gmap ascii Z :=
  dict_of_enumerate (set_iter (char_set df)).

Definition encode_sequences (df : DataFrame Row) : result (DataFrame EncRow) :=
  max_seq_len ← py_max (len <$> column Sequence df);
  max_smiles_len ← py_max (len <$> column SMILES df);
  Ok ((λ ir, (ir.1,
              {| sample := ir.2;
                 Encoded_Sequence :=
                   encode_string aa_to_num max_seq_len (Sequence ir.2);
                 Encoded_SMILES :=
                   encode_string (char_to_num df) max_smiles_len (SMILES ir.2)
              |})) <$> df).
End WithSetOrder.

(** What the encoder promises for a string [s], a vocabulary [d] and a
    length [L]: the vector [v] has length [L], starts with the
    vocabulary indices of the characters of [s] and is zero after them. *)
Definition encoded (d : gmap ascii Z) (L : nat) (s : string) (v : list Z) : Prop :=
  length v = L
  ∧ (∀ k c, chars s !! k = Some c → v !! k = Some (get0 d c))
  ∧ (∀ k, (len s ≤ k < L)%nat → v !! k = Some 0%Z).

(** [d] numbers the characters of [l] by their position plus one and
    knows no other character. *)
Definition numbers_from_one (d : gmap ascii Z) (l : list ascii) : Prop :=
  (∀ p c, l !! p = Some c → get0 d c = (Z.of_nat p + 1)%Z)
  ∧ (∀ c, c ∉ l → get0 d c = 0%Z).

(** [m] is the greatest element of [l]. *)
Definition is_max (l : list nat) (m : nat) : Prop :=
  m ∈ l ∧ ∀ x, x ∈ l → (x ≤ m)%nat.

End Encoder.

(** ** Python floats

    A finite Python float (IEEE 754 binary64) is modelled by the rational
    it stands for. An arithmetic operation computes the exact rational
    result and rounds it to the nearest number with a 53-bit mantissa, ties
    to the even mantissa. The model is that of the normal range
    [2^-1022 <= |x| < 2^1024]; the numbers of this program ([42 / n],
    [test_size * n], [0.7 * n] for lengths [n]) are far inside it. *)

Module Float.

Local Open Scope Q_scope.

(** The integer nearest to [q], ties to the even one: Python's [round]
    of a float, and the rounding of a mantissa. *)
Definition round_half_even (q : Q) : Z :=
  let f := Qfloor q in
  match Qcompare (q - inject_Z f) (1 # 2) with
  | Lt => f
  | Gt => (f + 1)%Z
  | Eq => if Z.even f then f else (f + 1)%Z
  end.

(** For [q > 0], the exponent [e] with [2^e <= q < 2^(e+1)]. *)
Definition ilog2 (q : Q) : Z :=
  let e := (Z.log2 (Qnum q) - Z.log2 (Z.pos (Qden q)))%Z in
  if Qle_bool (2 ^ e) q then e else (e - 1)%Z.

(** Rounding to binary64: the mantissa [q / ulp] lies in [2^52, 2^53). *)
Definition round_float (q : Q) : Q :=
  if Qeq_bool q 0 then 0
  else
    let ulp := 2 ^ (ilog2 (Qabs q) - 52) in
    Qred (inject_Z (round_half_even (q / ulp)) * ulp).

(** The unit roundoff [2^-53]: rounding changes a number by at most this
    fraction of it. *)
Definition eps : Q := 1 # 9007199254740992.

(** [float(n)] *)
Definition float_of_int (n : Z) : Q := round_float (inject_Z n).

(** [x * y] on floats *)
Definition float_mul (x y : Q) : Q := round_float (x * y).

(** [a / b] on ints: the correctly rounded quotient *)
Definition int_truediv (a b : Z) : result Q :=
  if decide (b = 0%Z) then Raise ZeroDivisionError
  else Ok (round_float (inject_Z a / inject_Z b)).

(** [round(x)] and [math.ceil(x)] of a float are exact. *)
Definition py_round (x : Q) : Z := round_half_even x.
Definition py_ceil (x : Q) : Z := Qceiling x.

Global Arguments round_half_even : simpl never.
Global Arguments ilog2 : simpl never.
Global Arguments round_float : simpl never.
Global Arguments float_of_int : simpl never.
Global Arguments float_mul : simpl never.
Global Arguments py_round : simpl never.
Global Arguments py_ceil : simpl never.

(** The value of a finite [spec_float] of the standard library's IEEE 754
    specification, against which [round_float] is tested below. *)
Definition SF2Q (x : SpecFloat.spec_float) : Q :=
  match x with
  | SpecFloat.S754_finite s m e =>
      inject_Z (if s then Z.neg m else Z.pos m) * 2 ^ e
  | _ => 0
  end.

Definition binary64_of_Z (n : Z) : SpecFloat.spec_float :=
  SpecFloat.binary_normalize 53 1024 n 0 false.
Definition binary64_mul := SpecFloat.SFmul 53 1024.
Definition binary64_div := SpecFloat.SFdiv 53 1024.

End Float.

(** ** Splitting: [train_test_split_proteins] *)

Module Splitter.

Import Float.

Definition protein (r : EncRow) : string := Protein (sample r).

(** [Series.unique()]: the distinct values, in order of first appearance. *)
Fixpoint unique (l : list string) : list string :=
  match l with
  | [] => []
  | x :: l' => x :: filter (λ y, y ≠ x) (unique l')
  end.

(** [a[idx]] and [obj.take(idx)] for a list of positions; a position out
    of range raises. *)
Definition take_rows {A} (a : list A) (idx : list nat) : result (list A) :=
  mapM (λ i, match a !! i with Some x => Ok x | None => Raise IndexError end) idx.

(** [df.drop(labels)]: the rows whose label is not listed; a listed
    label that the frame does not have raises. *)
Definition drop_labels {A} (df : DataFrame A) (labels : list nat) : result (DataFrame A) :=
  if decide (labels ⊆ index df)
  then Ok (filter (λ ir, ir.1 ∉ labels) df)
  else Raise KeyError.

(** [pd.concat(frames)]: raises when there is nothing to concatenate. *)
Definition concat {A} (frames : list (DataFrame A)) : result (DataFrame A) :=
  match frames with
  | [] => Raise ValueError
  | _ => Ok (mjoin frames)
  end.

(** The literal [0.7]. *)
Definition frac : Q := round_float (7 # 10).

(** pandas' [process_sampling_size]: [round(frac * obj_len)]. *)
Definition sample_size (obj_len : nat) : Z :=
  py_round (float_mul frac (float_of_int (Z.of_nat obj_len))).

Global Arguments frac : simpl never.
Global Arguments sample_size : simpl never.

(** sklearn's [_validate_shuffle_split] for a float [test_size] and no
    [train_size]. *)
Definition validate_shuffle_split (n_samples : nat) (test_size : Q) : result (Z * Z) :=
  if Qle_bool test_size 0 || Qle_bool 1 test_size then Raise ValueError
  else
    let n_test := py_ceil (float_mul test_size (float_of_int (Z.of_nat n_samples))) in
    let n_train := (Z.of_nat n_samples - n_test)%Z in
    if decide (n_train = 0)%Z then Raise ValueError
    else Ok (n_train, n_test).

(** The same check as [ShuffleSplit] repeats it, on the two integer sizes. *)
Definition validate_int_sizes (n_samples : nat) (n_train n_test : Z) : result () :=
  if decide (Z.of_nat n_samples ≤ n_test ∨ n_test ≤ 0)%Z then Raise ValueError
  else if decide (Z.of_nat n_samples ≤ n_train ∨ n_train ≤ 0)%Z then Raise ValueError
  else if decide (Z.of_nat n_samples < n_train + n_test)%Z then Raise ValueError
  else Ok ().

(** After a returned split, what the test side of Policy A holds. *)
Definition proteins_of (df : DataFrame EncRow) : list string :=
  unique (column protein df).

Definition samples_of (p : string) (df : DataFrame EncRow) : DataFrame EncRow :=
  filter (λ ir, protein ir.2 = p) df.

Section WithRandom.
(** [numpy.random.RandomState(42).permutation(n)]: the generator is
    seeded afresh at every use, so the arrangement of [0 .. n-1] it
    returns depends on [n] only. Which arrangement it is, is left open. *)
Variable permutation : nat → list nat.

(** [train_test_split(a, test_size=test_size, random_state=42)] *)
Definition train_test_split {A} (a : list A) (test_size : Q) : result (list A * list A) :=
  let n_samples := length a in
  sizes ← validate_shuffle_split n_samples test_size;
  let n_train := sizes.1 in
  let n_test := sizes.2 in
  _ ← validate_int_sizes n_samples n_train n_test;
  let perm := permutation n_samples in
  let ind_test := take (Z.to_nat n_test) perm in
  let ind_train := take (Z.to_nat n_train) (drop (Z.to_nat n_test) perm) in
  train ← take_rows a ind_train;
  test ← take_rows a ind_test;
  Ok (train, test).

(** [obj.sample(frac=0.7, random_state=42)]: the size is
    [round(frac * len(obj))]; the rows are those at the first [size]
    positions of the arrangement ([choice] without replacement, which
    raises when asked for more than there is). *)
Definition sample {A} (obj : DataFrame A) : result (DataFrame A) :=
  let obj_len := length obj in
  let size := sample_size obj_len in
  if decide (Z.of_nat obj_len < size)%Z then Raise ValueError
  else take_rows obj (take (Z.to_nat size) (permutation obj_len)).

(** One turn of the loop of Policy B. *)
Definition split_one (df : DataFrame EncRow) (p : string)
    : result (DataFrame EncRow * DataFrame EncRow) :=
  let protein_data := samples_of p df in
  train_part ← sample protein_data;
  test_part ← drop_labels protein_data (index train_part);
  Ok (train_part, test_part).

Definition train_test_split_proteins (df : DataFrame EncRow) (new_proteins : bool)
    : result (DataFrame EncRow * DataFrame EncRow) :=
  if new_proteins then
    let proteins := unique (column protein df) in
    test_size ← int_truediv 42 (Z.of_nat (length proteins));
    tt ← train_test_split proteins test_size;
    let train_proteins := tt.1 in
    let test_proteins := tt.2 in
    Ok (filter (λ ir, protein ir.2 ∈ train_proteins) df,
        filter (λ ir, protein ir.2 ∈ test_proteins) df)
  else
    parts ← mapM (split_one df) (unique (column protein df));
    train_data ← concat (fst <$> parts);
    test_data ← concat (snd <$> parts);
    Ok (train_data, test_data).
End WithRandom.

End Splitter.

(** ** The network: [DrugProteinNN]

    Tensors hold real numbers here: a batch is the list of its rows, a row
    the list of its features. The three kinds of layer are those of the
    tensor library, with the meaning its documentation gives them. *)

Module Network.

Local Open Scope R_scope.

Abbreviation row := (list R).
Abbreviation batch := (list (list R)).

Definition Rsum (l : list R) : R := foldr Rplus 0 l.

Definition dot (u v : row) : R := Rsum (zip_with Rmult u v).

(** [nn.Linear(in_features, out_features)]: [weight] has [out_features]
    rows of [in_features] numbers, [bias] has [out_features] numbers. *)
Record Linear : Type := {
  in_features : nat;
  out_features : nat;
  weight : list row;
  bias : row
}.

Definition Linear_shape (l : Linear) : Prop :=
  length (weight l) = out_features l
  ∧ Forall (λ w, length w = in_features l) (weight l)
  ∧ length (bias l) = out_features l.

(** [y = x W^T + b] on one row *)
Definition Linear_row (l : Linear) (x : row) : row :=
  zip_with (λ w b, dot w x + b) (weight l) (bias l).

(** A row of the wrong width cannot be multiplied with the weight. *)
Definition Linear_forward (l : Linear) (x : batch) : result batch :=
  if decide (Forall (λ r, length r = in_features l) x)
  then Ok (Linear_row l <$> x)
  else Raise RuntimeError.

(** [nn.BatchNorm1d(num_features)] with its learnt scale and shift and
    its running statistics. *)
Record BatchNorm1d : Type := {
  num_features : nat;
  gamma : row;
  beta : row;
  running_mean : row;
  running_var : row;
  eps : R
}.

Definition BatchNorm1d_shape (bn : BatchNorm1d) : Prop :=
  length (gamma bn) = num_features bn
  ∧ length (beta bn) = num_features bn
  ∧ length (running_mean bn) = num_features bn
  ∧ length (running_var bn) = num_features bn.

Definition feature (j : nat) (x : batch) : row := (λ r, nth j r 0) <$> x.

Definition mean (v : row) : R := Rsum v / INR (length v).

(** The variance of the batch, divided by the batch size. *)
Definition var (v : row) : R :=
  Rsum ((λ a, (a - mean v) * (a - mean v)) <$> v) / INR (length v).

(** [(x - mean) / sqrt(var + eps) * gamma + beta], feature by feature *)
Definition normalize (bn : BatchNorm1d) (mu sigma2 : row) (r : row) : row :=
  imap (λ j a, (a - nth j mu 0) / sqrt (nth j sigma2 0 + eps bn)
               * nth j (gamma bn) 0 + nth j (beta bn) 0) r.

(** In training the statistics are those of the batch, and a batch of
    one row is refused; in evaluation they are the running ones. (The
    update of the running statistics in training does not change the
    output and is left out.) *)
Definition BatchNorm1d_forward (training : bool) (bn : BatchNorm1d) (x : batch)
    : result batch :=
  if decide (Forall (λ r, length r = num_features bn) x) then
    if training then
      if decide (length x = 1%nat) then Raise ValueError
      else
        let mu := (λ j, mean (feature j x)) <$> seq 0 (num_features bn) in
        let sigma2 := (λ j, var (feature j x)) <$> seq 0 (num_features bn) in
        Ok (normalize bn mu sigma2 <$> x)
    else Ok (normalize bn (running_mean bn) (running_var bn) <$> x)
  else Raise RuntimeError.

(** [nn.ReLU()] *)
Definition ReLU (x : batch) : batch := (λ r : row, Rmax 0 <$> r) <$> x.

Record DrugProteinNN : Type := {
  fc1 : Linear; bn1 : BatchNorm1d;
  fc2 : Linear; bn2 : BatchNorm1d;
  fc3 : Linear; bn3 : BatchNorm1d;
  fc4 : Linear
}.

(** What [__init__(input_size)] fixes: the sizes of the seven layers.
    The initial numbers in them are drawn at random and left open. *)
Definition init_shape (input_size : nat) (net : DrugProteinNN) : Prop :=
  (in_features (fc1 net) = input_size ∧ out_features (fc1 net) = 512%nat
   ∧ Linear_shape (fc1 net))
  ∧ (num_features (bn1 net) = 512%nat ∧ BatchNorm1d_shape (bn1 net))
  ∧ (in_features (fc2 net) = 512%nat ∧ out_features (fc2 net) = 256%nat
     ∧ Linear_shape (fc2 net))
  ∧ (num_features (bn2 net) = 256%nat ∧ BatchNorm1d_shape (bn2 net))
  ∧ (in_features (fc3 net) = 256%nat ∧ out_features (fc3 net) = 128%nat
     ∧ Linear_shape (fc3 net))
  ∧ (num_features (bn3 net) = 128%nat ∧ BatchNorm1d_shape (bn3 net))
  ∧ (in_features (fc4 net) = 128%nat ∧ out_features (fc4 net) = 1%nat
     ∧ Linear_shape (fc4 net)).

Definition forward (training : bool) (net : DrugProteinNN) (x : batch) : result batch :=
  a1 ← Linear_forward (fc1 net) x;
  n1 ← BatchNorm1d_forward training (bn1 net) a1;
  let x1 := ReLU n1 in
  a2 ← Linear_forward (fc2 net) x1;
  n2 ← BatchNorm1d_forward training (bn2 net) a2;
  let x2 := ReLU n2 in
  a3 ← Linear_forward (fc3 net) x2;
  n3 ← BatchNorm1d_forward training (bn3 net) a3;
  let x3 := ReLU n3 in
  Linear_forward (fc4 net) x3.

(** A batch of [n] rows of [width] numbers each. *)
Definition has_shape (n width : nat) (x : batch) : Prop :=
  length x = n ∧ Forall (λ r, length r = width) x.

End Network.

(** ** Sample data used by the examples *)

Module Samples.

Definition row1 : Row :=
  {| Drug := "D1"; Protein := "P1"; SMILES := "CCO"; Sequence := "ACXY";
     Affinity := 5 |}.
Definition row2 : Row :=
  {| Drug := "D2"; Protein := "P2"; SMILES := "C"; Sequence := "MKVLAW";
     Affinity := 13 |}.


Definition encoded_row (p : string) : EncRow :=
  {| sample := {| Drug := "D"; Protein := p; SMILES := "C"; Sequence := "A";
                  Affinity := 5 |};
     Encoded_Sequence := [1%Z];
     Encoded_SMILES := [1%Z] |}.

(** A frame with its default index [0 .. n-1]. *)
Definition frame {A} (rows : list A) : DataFrame A := imap pair rows.

(** Three rows of protein P1 and one of P2. *)
Definition df_seen : DataFrame EncRow :=
  frame (encoded_row <$> ["P1"; "P1"; "P2"; "P1"]).

(** [n] rows with [n] different proteins: "P", "PP", "PPP", ... *)
Definition df_distinct (n : nat) : DataFrame EncRow :=
  frame ((λ i, encoded_row (String.string_of_list_ascii (replicate (S i) "P"%char)))
         <$> seq 0 n).


(** A network of the right shape whose linear layers have zero weights,
    and whose last bias is -1. *)
Definition const_linear (i o : nat) (b : R) : Network.Linear :=
  {| Network.in_features := i; Network.out_features := o;
     Network.weight := replicate o (replicate i 0%R);
     Network.bias := replicate o b |}.

Definition unit_bn (k : nat) : Network.BatchNorm1d :=
  {| Network.num_features := k;
     Network.gamma := replicate k 1%R; Network.beta := replicate k 0%R;
     Network.running_mean := replicate k 0%R;
     Network.running_var := replicate k 1%R;
     Network.eps := (1 / 100000)%R |}.

Definition sample_net (input_size : nat) : Network.DrugProteinNN :=
  {| Network.fc1 := const_linear input_size 512 0; Network.bn1 := unit_bn 512;
     Network.fc2 := const_linear 512 256 0; Network.bn2 := unit_bn 256;
     Network.fc3 := const_linear 256 128 0; Network.bn3 := unit_bn 128;
     Network.fc4 := const_linear 128 1 (-1) |}.

End Samples.

(** ** More sample data *)

Module MoreSamples.

Import Samples.

Definition df2 : DataFrame Row := [(0, row1); (1, row2)].

(** [df2] as [encode_sequences] returns it when the character set is
    iterated in the order O, C. *)
Definition enc1 : EncRow :=
  {| sample := row1;
     Encoded_Sequence := [1; 2; 0; 20; 0; 0]%Z;
     Encoded_SMILES := [2; 2; 1]%Z |}.
Definition enc2 : EncRow :=
  {| sample := row2;
     Encoded_Sequence := [11; 9; 18; 10; 1; 19]%Z;
     Encoded_SMILES := [2; 0; 0]%Z |}.
Definition df2_encoded : DataFrame EncRow := [(0, enc1); (1, enc2)].

End MoreSamples.

(** ** Batches, training and evaluation:
       [prepare_dataloader], [train_model], [evaluate_model_with_metrics] *)

Module Pipeline.

Import Network.

(** [foldl] in the exception monad: the loop stops at the first raise. *)
Fixpoint foldM {A B} (f : A → B → result A) (a : A) (l : list B) : result A :=
  match l with
  | [] => Ok a
  | b :: l' => a' ← f a b; foldM f a' l'
  end.

(** One row of [X = np.hstack([X_smiles, X_sequence])] and its target.
    The conversion to 32-bit floats is exact on the small integers of the
    features; on the affinity its rounding is not modelled. *)
Definition features (er : EncRow) : row :=
  IZR <$> (Encoded_SMILES er ++ Encoded_Sequence er).

Definition target (er : EncRow) : R := Q2R (Affinity (sample er)).

Record DataLoader : Type := {
  dataset : list (row * R);
  batch_size : nat
}.

(** All numbers of the list are the same. *)
Definition uniform (l : list nat) : Prop :=
  Forall (λ x, Forall (λ y, x = y) l) l.

Definition widths (f : EncRow → list Z) (df : DataFrame EncRow) : list nat :=
  (λ ir, length (f ir.2)) <$> df.

(** [prepare_dataloader(df, batch_size)]. [np.array] refuses lists of
    different lengths, the shuffling sampler refuses an empty data set
    and the batch sampler a batch size that is not positive. *)
Definition prepare_dataloader (df : DataFrame EncRow) (batch_size : nat)
    : result DataLoader :=
  if decide (uniform (widths Encoded_SMILES df)
             ∧ uniform (widths Encoded_Sequence df))
  then
    match df with
    | [] => Raise ValueError
    | _ => if decide (batch_size = 0%nat) then Raise ValueError
           else Ok {| dataset := (λ ir, (features ir.2, target ir.2)) <$> df;
                      batch_size := batch_size |}
    end
  else Raise ValueError.

(** Every feature row of the loader has [input_size] numbers. *)
Definition rows_width (input_size : nat) (dl : DataLoader) : Prop :=
  Forall (λ xy, length xy.1 = input_size) (dataset dl).

(** [len(loader)]: the last, shorter batch counts. *)
Definition n_batches (n bs : nat) : nat := (n + bs - 1) / bs.

(** The batches of one pass over the rows [l], already in the order of
    the pass. *)
Definition batches {A} (bs : nat) (l : list A) : list (list A) :=
  (λ k, take bs (drop (k * bs) l)) <$> seq 0 (n_batches (length l) bs).

(** One pass over the loader: the rows in the order [perm] that the
    sampler drew, cut into batches, each collated into a feature matrix
    and a target vector. *)
Definition iter_loader (perm : list nat) (dl : DataLoader)
    : result (list (batch * list R)) :=
  rows ← Splitter.take_rows (dataset dl) perm;
  Ok ((λ b : list (row * R), (b.*1, b.*2)) <$> batches (batch_size dl) rows).

(** A tensor of dimension 0, 1 or 2. *)
Inductive tensor : Type :=
  | Scalar (a : R)
  | Vector (v : list R)
  | Matrix (m : batch).

(** [t.squeeze()]: every dimension of size 1 is removed. *)
Definition squeeze (m : batch) : tensor :=
  match m with
  | [r] => match r with
           | [a] => Scalar a
           | _ => Vector r
           end
  | _ => if decide (Forall (λ r, length r = 1%nat) m)
         then Vector (mjoin m)
         else Matrix m
  end.

Section Training.
(** The loss function and the optimizer are arguments of [train_model].
    [step] stands for all that one iteration writes into the model and
    the optimizer: the running statistics of the forward pass and the
    parameters after [zero_grad], [backward] and [optimizer.step]. *)
Context {Opt : Type}.
Variable criterion : tensor → list R → R.
Variable step : Opt → DrugProteinNN → batch → list R → Opt * DrugProteinNN.
(** The order the sampler draws at each pass. *)
Variable shuffle : nat → nat → list nat.

(** The body of the inner loop; the state is the optimizer, the model and
    [total_loss]. *)
Definition train_batch (st : Opt * DrugProteinNN * R) (b : batch * list R)
    : result (Opt * DrugProteinNN * R) :=
  outputs ← forward true st.1.2 b.1;
  let loss := criterion (squeeze outputs) b.2 in
  let st' := step st.1.1 st.1.2 b.1 b.2 in
  Ok (st', (st.2 + loss)%R).

(** One epoch; returns the state and the mean loss it prints. *)
Definition train_epoch (dl : DataLoader) (st : Opt * DrugProteinNN) (epoch : nat)
    : result (Opt * DrugProteinNN * R) :=
  bs ← iter_loader (shuffle epoch (length (dataset dl))) dl;
  st' ← foldM train_batch (st, 0%R) bs;
  let len := n_batches (length (dataset dl)) (batch_size dl) in
  if decide (len = 0%nat) then Raise ZeroDivisionError
  else Ok (st'.1, (st'.2 / INR len)%R).

(** The losses of the iterations of one pass over the batches [bs] that
    starts with the optimizer and the model [st] and ends with [st']:
    each is the criterion on the squeezed output of the model as the
    iterations before it left it. *)
Inductive pass_losses : Opt * DrugProteinNN → list (batch * list R) → list R
    → Opt * DrugProteinNN → Prop :=
  | pass_nil st : pass_losses st [] [] st
  | pass_cons st b bs outputs ls st' :
      forward true st.2 b.1 = Ok outputs →
      pass_losses (step st.1 st.2 b.1 b.2) bs ls st' →
      pass_losses st (b :: bs) (criterion (squeeze outputs) b.2 :: ls) st'.

(** [train_model]: the state after the last epoch and the losses printed. *)
Definition train_model (dl : DataLoader) (st : Opt * DrugProteinNN) (epochs : nat)
    : result (Opt * DrugProteinNN * list R) :=
  foldM (λ acc epoch,
           r ← train_epoch dl acc.1 epoch;
           Ok (r.1, acc.2 ++ [r.2]))
        (st, []) (seq 0 epochs).
End Training.

Section Evaluation.
(** The metric functions of the libraries, in the order they are called. *)
Context {M : Type}.
Variable metrics : list R → list R → result M.

(** The body of the loop of the evaluator: [y_true] is extended first,
    then [y_pred]; a 0-dimensional array cannot be iterated over. A
    network whose last layer has one output feature never yields a
    matrix here; that case is closed with the error the metric functions
    raise on it. *)
Definition collect_batch (net : DrugProteinNN) (acc : list R * list R)
    (b : batch * list R) : result (list R * list R) :=
  outputs ← forward false net b.1;
  match squeeze outputs with
  | Vector v => Ok (acc.1 ++ b.2, acc.2 ++ v)
  | Scalar _ => Raise TypeError
  | Matrix _ => Raise ValueError
  end.

Definition evaluate_model_with_metrics (net : DrugProteinNN) (perm : list nat)
    (dl : DataLoader) : result M :=
  bs ← iter_loader perm dl;
  yy ← foldM (collect_batch net) ([], []) bs;
  metrics yy.1 yy.2.
End Evaluation.

End Pipeline.

(** ** Sample loaders *)

Module LoaderSamples.

Import Network Pipeline Samples.

(** Three rows in batches of two: the last batch has one row. *)
Definition loader3 : DataLoader :=
  {| dataset := [([1; 2], 5); ([3; 4], 6); ([5; 6], 7)]%R; batch_size := 2 |}.

(** Four rows in batches of two. *)
Definition loader4 : DataLoader :=
  {| dataset := [([1; 2], 5); ([3; 4], 6); ([5; 6], 7); ([7; 8], 8)]%R;
     batch_size := 2 |}.

Definition loader0 : DataLoader := {| dataset := []; batch_size := 2 |}.

(** A loss that is always 0 and an optimizer that changes nothing. *)
Definition zero_loss (t : tensor) (y : list R) : R := 0%R.
Definition keep_step (opt : ()) (net : DrugProteinNN) (x : batch) (y : list R)
    : () * DrugProteinNN := (opt, net).

(** The order [0 .. n-1] at every pass. *)
Definition no_shuffle (epoch n : nat) : list nat := seq 0 n.

(** Metrics that hand back what they are given. *)
Definition echo_metrics (y_true y_pred : list R) : result (list R * list R) :=
  Ok (y_true, y_pred).

(** Two rows of one protein, before and after encoding. *)
Definition df_pair : DataFrame Row := [(0, row1); (1, row1)].
Definition enc_pair : EncRow :=
  {| sample := row1;
     Encoded_Sequence := [1; 2; 0; 20]%Z;
     Encoded_SMILES := [2; 2; 1]%Z |}.
Definition df_pair_encoded : DataFrame EncRow := [(0, enc_pair); (1, enc_pair)].

End LoaderSamples.

(** * Properties of the encoder *)

Section EncoderProofs.
Import Encoder.

Lemma length_chars s : length (chars s) = len s.
Proof. induction s as [|a s IH]; simpl; [done|]. by rewrite IH. Qed.

Lemma enumerate_snoc {A} (l : list A) x :
  enumerate (l ++ [x]) = enumerate l ++ [(length l, x)].
Proof.
  unfold enumerate. rewrite imap_app. simpl.
  by rewrite Nat.add_0_r.
Qed.

Lemma dict_of_enumerate_snoc l x :
  dict_of_enumerate (l ++ [x])
  = <[x := (Z.of_nat (length l) + 1)%Z]> (dict_of_enumerate l).
Proof.
  unfold dict_of_enumerate. rewrite enumerate_snoc, foldl_app. done.
Qed.

Lemma dict_of_enumerate_None l c :
  c ∉ l → dict_of_enumerate l !! c = None.
Proof.
  induction l as [|x l IH] using rev_ind; intros Hc.
  - done.
  - rewrite dict_of_enumerate_snoc.
    apply not_elem_of_app in Hc as [Hl Hx].
    rewrite lookup_insert_ne; [by apply IH|].
    intros ->. apply Hx. by left.
Qed.

Lemma dict_of_enumerate_Some l p c :
  NoDup l → l !! p = Some c →
  dict_of_enumerate l !! c = Some (Z.of_nat p + 1)%Z.
Proof.
  induction l as [|x l IH] using rev_ind; intros Hnd Hp.
  - done.
  - rewrite dict_of_enumerate_snoc.
    apply NoDup_app in Hnd as (Hnd & Hdisj & _).
    destruct (decide (p < length l)%nat) as [Hlt|Hge].
    + rewrite lookup_app_l in Hp by done.
      rewrite lookup_insert_ne; [by apply IH|].
      intros ->. eapply Hdisj; [by eapply list_elem_of_lookup_2|by left].
    + rewrite lookup_app_r in Hp by lia.
      apply list_lookup_singleton_Some in Hp as [Hp ->].
      rewrite lookup_insert_eq. do 2 f_equal. lia.
Qed.

Lemma dict_numbers_from_one l :
  NoDup l → numbers_from_one (dict_of_enumerate l) l.
Proof.
  intros Hnd. split.
  - intros p c Hp. unfold get0.
    by rewrite (dict_of_enumerate_Some l p c).
  - intros c Hc. unfold get0. by rewrite dict_of_enumerate_None.
Qed.

Lemma NoDup_amino_acids : NoDup amino_acids.
Proof. apply (bool_decide_unpack _). by vm_compute. Qed.

(** The protein vocabulary numbers the twenty letters of the alphabet,
    in the order they are written, from 1 to 20, and knows no other
    character. *)
Lemma aa_to_num_alphabet :
  numbers_from_one aa_to_num (chars "ACDEFGHIKLMNPQRSTVWY").
Proof.
  change (chars "ACDEFGHIKLMNPQRSTVWY") with amino_acids.
  apply dict_numbers_from_one, NoDup_amino_acids.
Qed.

Lemma foldl_max_ge (l : list nat) x : (x ≤ foldl Nat.max x l)%nat.
Proof.
  revert x. induction l as [|y l IH]; intros x; simpl; [lia|].
  specialize (IH (Nat.max x y)). lia.
Qed.

Lemma foldl_max_is_max (l : list nat) x :
  is_max (x :: l) (foldl Nat.max x l).
Proof.
  revert x. induction l as [|y l IH]; intros x; simpl.
  - split; [by left|]. intros z ->%list_elem_of_singleton. done.
  - destruct (IH (Nat.max x y)) as [Hin Hle]. split.
    + apply elem_of_cons in Hin as [Heq|Hin].
      * destruct (Nat.max_spec x y) as [[_ Hm]|[_ Hm]]; rewrite Heq, Hm.
        -- right. by left.
        -- by left.
      * by do 2 right.
    + intros z Hz. apply elem_of_cons in Hz as [->|Hz].
      * etrans; [|apply Hle; by left]. lia.
      * apply elem_of_cons in Hz as [->|Hz].
        -- etrans; [|apply Hle; by left]. lia.
        -- apply Hle. by right.
Qed.

Lemma py_max_Ok (l : list nat) :
  l ≠ [] → ∃ m, py_max l = Ok m ∧ is_max l m.
Proof.
  destruct l as [|x l]; [done|]. intros _.
  eexists. split; [done|]. apply foldl_max_is_max.
Qed.

Lemma encode_string_length d L s :
  (len s ≤ L)%nat → length (encode_string d L s) = L.
Proof.
  intros Hle. unfold encode_string.
  rewrite length_app, length_fmap, length_replicate, length_chars. lia.
Qed.

(** Without the bound the padding is empty and the vector is as long as
    the string. *)
Lemma encode_string_long d L s :
  (L < len s)%nat → encode_string d L s = get0 d <$> chars s.
Proof.
  intros Hlt. unfold encode_string.
  replace (Z.to_nat _) with 0%nat by lia. simpl. by rewrite app_nil_r.
Qed.

Lemma encode_string_encoded d L s :
  (len s ≤ L)%nat → encoded d L s (encode_string d L s).
Proof.
  intros Hle. split; [by apply encode_string_length|]. split.
  - intros k c Hk. unfold encode_string.
    rewrite lookup_app_l.
    + by rewrite list_lookup_fmap, Hk.
    + rewrite length_fmap. by eapply lookup_lt_Some.
  - intros k [Hlo Hhi]. unfold encode_string.
    rewrite lookup_app_r; rewrite length_fmap, length_chars; [|done].
    apply lookup_replicate_2. lia.
Qed.

Variable set_iter : gset ascii → list ascii.
Hypothesis set_iter_perm : ∀ s, set_iter s ≡ₚ elements s.

Lemma NoDup_set_iter s : NoDup (set_iter s).
Proof using set_iter_perm. rewrite set_iter_perm. apply NoDup_elements. Qed.

Lemma elem_of_set_iter s c : c ∈ set_iter s ↔ c ∈ s.
Proof using set_iter_perm. rewrite set_iter_perm. apply elem_of_elements. Qed.

Lemma elem_of_char_set df i r c :
  (i, r) ∈ df → c ∈ chars (SMILES r) → c ∈ char_set df.
Proof.
  intros Hr Hc. unfold char_set. apply elem_of_list_to_set.
  apply list_elem_of_join. exists (chars (SMILES r)). split; [done|].
  apply list_elem_of_fmap. exists (SMILES r). split; [done|].
  unfold column. apply list_elem_of_fmap. by exists (i, r).
Qed.

(** C1. For every row of the frame being encoded, [encode_sequences]
    returns, and both encoded columns of that row have the length of the
    longest string of their own column, start with the vocabulary indices
    of the row's characters and are zero after them. The protein
    vocabulary numbers the letters of ["ACDEFGHIKLMNPQRSTVWY"] by position
    plus one and gives 0 for any other character; the SMILES vocabulary
    does the same for the order in which the character set is iterated,
    and every character of the row's SMILES string is in it. *)
Theorem encode_sequences_in_corpus (df : DataFrame Row) i r :
  (i, r) ∈ df →
  ∃ df' L_seq L_smi er,
    encode_sequences set_iter df = Ok df'
    ∧ index df' = index df
    ∧ is_max (len <$> column Sequence df) L_seq
    ∧ is_max (len <$> column SMILES df) L_smi
    ∧ (i, er) ∈ df' ∧ sample er = r
    ∧ encoded aa_to_num L_seq (Sequence r) (Encoded_Sequence er)
    ∧ encoded (char_to_num set_iter df) L_smi (SMILES r) (Encoded_SMILES er)
    ∧ numbers_from_one aa_to_num (chars "ACDEFGHIKLMNPQRSTVWY")
    ∧ numbers_from_one (char_to_num set_iter df) (set_iter (char_set df))
    ∧ (∀ c, c ∈ chars (SMILES r) → c ∈ set_iter (char_set df)).
Proof using set_iter_perm.
  intros Hr.
  assert (Hne : df ≠ []) by (intros ->; by apply not_elem_of_nil in Hr).
  destruct (py_max_Ok (len <$> column Sequence df)) as (Lq & Hq & Hmq).
  { unfold column. by destruct df. }
  destruct (py_max_Ok (len <$> column SMILES df)) as (Ls & Hs & Hms).
  { unfold column. by destruct df. }
  eexists _, Lq, Ls, _. unfold encode_sequences.
  rewrite Hq, Hs. simpl. split; [reflexivity|].
  split. { unfold index. rewrite <-list_fmap_compose. done. }
  do 2 (split; [done|]).
  split. { apply list_elem_of_fmap. exists (i, r). split; [reflexivity|done]. }
  simpl. split; [done|].
  split.
  { apply encode_string_encoded. apply Hmq.
    apply list_elem_of_fmap. exists (Sequence r). split; [done|].
    apply list_elem_of_fmap. by exists (i, r). }
  split.
  { apply encode_string_encoded. apply Hms.
    apply list_elem_of_fmap. exists (SMILES r). split; [done|].
    apply list_elem_of_fmap. by exists (i, r). }
  split. { exact aa_to_num_alphabet. }
  split. { apply dict_numbers_from_one, NoDup_set_iter. }
  intros c Hc. apply elem_of_set_iter. by eapply elem_of_char_set.
Qed.

End EncoderProofs.

Section EncoderExamples.
Import Encoder.

Import Samples.

Example encode_string_pads :
  encode_string aa_to_num 6 "ACXY" = [1; 2; 0; 20; 0; 0]%Z.
Proof. by vm_compute. Qed.

Example encode_sequences_rows :
  column Encoded_Sequence <$> encode_sequences elements [(0%nat, row1); (1%nat, row2)]
  = Ok [[1; 2; 0; 20; 0; 0]; [11; 9; 18; 10; 1; 19]]%Z.
Proof. by vm_compute. Qed.

Example encode_sequences_empty :
  encode_sequences elements [] = Raise ValueError.
Proof. reflexivity. Qed.

Lemma encode_sequences_in_corpus_witness :
  (∀ s : gset ascii, elements s ≡ₚ elements s)
  ∧ (0%nat, row1) ∈ [(0%nat, row1); (1%nat, row2)]
  ∧ ∃ df' L_seq L_smi er,
      encode_sequences elements [(0%nat, row1); (1%nat, row2)] = Ok df'
      ∧ index df' = index [(0%nat, row1); (1%nat, row2)]
      ∧ is_max (len <$> column Sequence [(0%nat, row1); (1%nat, row2)]) L_seq
      ∧ is_max (len <$> column SMILES [(0%nat, row1); (1%nat, row2)]) L_smi
      ∧ (0%nat, er) ∈ df' ∧ sample er = row1
      ∧ encoded aa_to_num L_seq (Sequence row1) (Encoded_Sequence er)
      ∧ encoded (char_to_num elements [(0%nat, row1); (1%nat, row2)]) L_smi
          (SMILES row1) (Encoded_SMILES er)
      ∧ numbers_from_one aa_to_num (chars "ACDEFGHIKLMNPQRSTVWY")
      ∧ numbers_from_one (char_to_num elements [(0%nat, row1); (1%nat, row2)])
          (elements (char_set [(0%nat, row1); (1%nat, row2)]))
      ∧ (∀ c, c ∈ chars (SMILES row1) →
           c ∈ elements (char_set [(0%nat, row1); (1%nat, row2)])).
Proof.
  split; [reflexivity|]. split; [apply list_elem_of_here|].
  apply (encode_sequences_in_corpus elements).
  - reflexivity.
  - apply list_elem_of_here.
Defined.

(** A string longer than the length it is encoded against cannot occur
    inside [encode_sequences]: the length is the maximum over the very
    column being encoded, and every vector has exactly that length. *)
Lemma encode_sequences_no_overflow set_iter (df : DataFrame Row) df' :
  encode_sequences set_iter df = Ok df' →
  ∀ i er, (i, er) ∈ df' →
    ∃ L_seq L_smi,
      is_max (len <$> column Sequence df) L_seq
      ∧ is_max (len <$> column SMILES df) L_smi
      ∧ length (Encoded_Sequence er) = L_seq
      ∧ length (Encoded_SMILES er) = L_smi.
Proof.
  unfold encode_sequences. intros Henc i er Her.
  destruct (py_max_Ok (len <$> column Sequence df)) as (Lq & Hq & Hmq).
  { destruct df; [|done]. simpl in Henc. by subst. }
  destruct (py_max_Ok (len <$> column SMILES df)) as (Ls & Hs & Hms).
  { destruct df; [|done]. simpl in Henc. by subst. }
  rewrite Hq, Hs in Henc. simpl in Henc. injection Henc as <-.
  apply list_elem_of_fmap in Her as ([j r] & [= -> ->] & Hr). simpl.
  exists Lq, Ls. do 2 (split; [done|]). split.
  - apply encode_string_length, Hmq.
    apply list_elem_of_fmap. exists (Sequence r). split; [done|].
    apply list_elem_of_fmap. by exists (j, r).
  - apply encode_string_length, Hms.
    apply list_elem_of_fmap. exists (SMILES r). split; [done|].
    apply list_elem_of_fmap. by exists (j, r).
Qed.

End EncoderExamples.

(** * Properties of the float model *)

Section FloatProofs.
Import Float.
Local Open Scope Q_scope.

Lemma round_half_even_lower q : q - (1 # 2) <= inject_Z (round_half_even q).
Proof.
  unfold round_half_even.
  pose proof (Qfloor_le q) as Hlo. pose proof (Qlt_floor q) as Hhi.
  rewrite inject_Z_plus in Hhi. change (inject_Z 1) with 1 in Hhi.
  destruct (Qcompare_spec (q - inject_Z (Qfloor q)) (1 # 2)) as [He|Hl|Hg].
  - destruct (Z.even _); [lra|].
    rewrite inject_Z_plus. change (inject_Z 1) with 1. lra.
  - lra.
  - rewrite inject_Z_plus. change (inject_Z 1) with 1. lra.
Qed.

Lemma round_half_even_upper q : inject_Z (round_half_even q) <= q + (1 # 2).
Proof.
  unfold round_half_even.
  pose proof (Qfloor_le q) as Hlo. pose proof (Qlt_floor q) as Hhi.
  rewrite inject_Z_plus in Hhi. change (inject_Z 1) with 1 in Hhi.
  destruct (Qcompare_spec (q - inject_Z (Qfloor q)) (1 # 2)) as [He|Hl|Hg].
  - destruct (Z.even _); [lra|].
    rewrite inject_Z_plus. change (inject_Z 1) with 1. lra.
  - lra.
  - rewrite inject_Z_plus. change (inject_Z 1) with 1. lra.
Qed.

Lemma Qpower2_pos e : 0 < Qpower 2 e.
Proof. apply Qpower_0_lt. lra. Qed.

Lemma ilog2_lower q : 0 < q → Qpower 2 (ilog2 q) <= q.
Proof.
  intros Hq. unfold ilog2.
  set (e := (Z.log2 (Qnum q) - Z.log2 (Z.pos (Qden q)))%Z).
  destruct (Qle_bool (Qpower 2 e) q) eqn:Hb.
  { by apply Qle_bool_iff. }
  destruct q as [a b]. cbn [Qnum Qden] in e.
  assert (Ha : (0 < a)%Z).
  { unfold Qlt in Hq. simpl in Hq. lia. }
  pose proof (Z.log2_spec a Ha) as [Hal _].
  pose proof (Z.log2_spec (Z.pos b) (Pos2Z.is_pos b)) as [_ Hbu].
  pose proof (Z.log2_nonneg a) as Hna.
  pose proof (Z.log2_nonneg (Z.pos b)) as Hnb.
  clear Hb. subst e.
  replace (Z.log2 a - Z.log2 (Z.pos b) - 1)%Z
    with (Z.log2 a - Z.succ (Z.log2 (Z.pos b)))%Z by lia.
  rewrite Qpower_minus by lra.
  assert (E1 : Qpower 2 (Z.log2 a) == inject_Z (2 ^ Z.log2 a))
    by (symmetry; apply (Zpower_Qpower 2); lia).
  assert (E2 : Qpower 2 (Z.succ (Z.log2 (Z.pos b)))
               == inject_Z (2 ^ Z.succ (Z.log2 (Z.pos b))))
    by (symmetry; apply (Zpower_Qpower 2); lia).
  rewrite E1, E2. clear E1 E2.
  rewrite (Qmake_Qdiv a b).
  assert (H1 : inject_Z (2 ^ Z.log2 a) <= inject_Z a)
    by (by rewrite <-Zle_Qle).
  assert (H2 : inject_Z (Z.pos b) <= inject_Z (2 ^ Z.succ (Z.log2 (Z.pos b))))
    by (rewrite <-Zle_Qle; lia).
  assert (H3 : 0 < inject_Z (Z.pos b))
    by (replace 0 with (inject_Z 0) by done; by rewrite <-Zlt_Qlt).
  assert (H4 : 0 < inject_Z (2 ^ Z.log2 a)).
  { replace 0 with (inject_Z 0) by done. rewrite <-Zlt_Qlt.
    apply Z.pow_pos_nonneg; lia. }
  set (X := inject_Z (2 ^ Z.log2 a)) in *.
  set (Y := inject_Z (2 ^ Z.succ (Z.log2 (Z.pos b)))) in *.
  set (A := inject_Z a) in *. set (B := inject_Z (Z.pos b)) in *.
  apply Qle_shift_div_l; [done|].
  apply Qle_trans with (X / Y * Y); [|].
  - apply Qmult_le_l; [|done].
    apply Qlt_shift_div_l; lra.
  - field_simplify; lra.
Qed.

Lemma Qabs_pos_eq q : 0 < q → Qabs q == q.
Proof. intros Hq. apply Qabs_pos. lra. Qed.

Lemma round_float_bounds q :
  0 < q → q * (1 - eps) <= round_float q ∧ round_float q <= q * (1 + eps).
Proof.
  intros Hq. unfold round_float.
  destruct (Qeq_bool q 0) eqn:Hz.
  { apply Qeq_bool_iff in Hz. lra. }
  clear Hz. rewrite Qred_correct.
  assert (Hqa : 0 < Qabs q) by (rewrite Qabs_pos_eq; done).
  pose proof (ilog2_lower (Qabs q) Hqa) as Hlo.
  set (e := ilog2 (Qabs q)) in *. clearbody e.
  apply (λ H, Qle_trans _ _ q H) in Hlo;
    [|apply Qle_lteq; right; by apply Qabs_pos_eq].
  pose proof (Qpower2_pos (e - 52)) as HU.
  assert (HeU : Qpower 2 e == 4503599627370496 * Qpower 2 (e - 52)).
  { replace e with (52 + (e - 52))%Z at 1 by lia.
    rewrite Qpower_plus by lra. apply Qmult_comp; [|reflexivity].
    by vm_compute. }
  rewrite HeU in Hlo. clear HeU.
  set (U := Qpower 2 (e - 52)) in *. clearbody U.
  pose proof (round_half_even_lower (q / U)) as Hrl.
  pose proof (round_half_even_upper (q / U)) as Hru.
  set (r := inject_Z (round_half_even (q / U))) in *. clearbody r.
  assert (Hm : q / U * U == q) by (field; lra).
  set (m := q / U) in *. clearbody m.
  unfold eps. split; nra.
Qed.

Lemma frac_value : Splitter.frac == 3152519739159347 # 4503599627370496.
Proof. by vm_compute. Qed.

Lemma inject_Z_pos_ge (n : Z) : (1 ≤ n)%Z → 1 <= inject_Z n.
Proof. intros H. change 1 with (inject_Z 1). by rewrite <-Zle_Qle. Qed.

(** [round(0.7 * n)] is within one half of seven tenths of [n]. *)
Lemma sample_size_bounds (n : Z) :
  (1 ≤ n < 2 ^ 48)%Z →
  (7 * n - 5
   ≤ 10 * py_round (float_mul Splitter.frac (float_of_int n))
   ≤ 7 * n + 5)%Z.
Proof.
  intros [Hn1 Hn2].
  unfold py_round, float_mul, float_of_int.
  pose proof (inject_Z_pos_ge n Hn1) as HN1.
  assert (HN2 : inject_Z n < 281474976710656).
  { change 281474976710656 with (inject_Z (2 ^ 48)). by rewrite <-Zlt_Qlt. }
  set (N := inject_Z n) in *.
  destruct (round_float_bounds N) as [Hal Hau]; [lra|].
  set (a := round_float N) in *. clearbody a.
  assert (Hp : 0 < Splitter.frac * a).
  { rewrite frac_value. unfold eps in *. lra. }
  destruct (round_float_bounds _ Hp) as [Hxl Hxu].
  pose proof (round_half_even_lower (round_float (Splitter.frac * a))) as Hsl.
  pose proof (round_half_even_upper (round_float (Splitter.frac * a))) as Hsu.
  set (x := round_float (Splitter.frac * a)) in *. clearbody x.
  rewrite frac_value in Hxl, Hxu.
  set (s := round_half_even x) in *. clearbody s.
  unfold eps in *.
  assert (H1 : inject_Z (7 * n) < inject_Z (10 * s + 6)).
  { rewrite inject_Z_plus, !inject_Z_mult.
    fold N. change (inject_Z 10) with 10. change (inject_Z 7) with 7.
    change (inject_Z 6) with 6. lra. }
  assert (H2 : inject_Z (10 * s) < inject_Z (7 * n + 6)).
  { rewrite inject_Z_mult, inject_Z_plus, inject_Z_mult.
    fold N. change (inject_Z 10) with 10. change (inject_Z 7) with 7.
    change (inject_Z 6) with 6. lra. }
  rewrite <-Zlt_Qlt in H1, H2. lia.
Qed.

Lemma Qmult_le_mono x x' y y' :
  0 <= x → x <= x' → 0 <= y → y <= y' → x * y <= x' * y'.
Proof. intros. nra. Qed.

(** [ceil((42 / n) * n)] is 42 or 43. *)
Lemma n_test_bounds (n : Z) t :
  (43 ≤ n < 2 ^ 48)%Z →
  int_truediv 42 n = Ok t →
  0 < t ∧ t < 1
  ∧ (42 ≤ py_ceil (float_mul t (float_of_int n)) ≤ 43)%Z.
Proof.
  intros [Hn1 Hn2]. unfold int_truediv.
  destruct (decide (n = 0%Z)) as [->|_]; [lia|]. intros [= <-].
  assert (HN1 : 43 <= inject_Z n).
  { change 43 with (inject_Z 43). by rewrite <-Zle_Qle. }
  set (N := inject_Z n) in *. change (inject_Z 42) with 42.
  assert (Hd : 0 < 42 / N) by (apply Qlt_shift_div_l; lra).
  assert (HdN : 42 / N * N == 42) by (field; lra).
  destruct (round_float_bounds _ Hd) as [Htl Htu].
  set (t := round_float (42 / N)) in *. clearbody t.
  set (d := 42 / N) in *. clearbody d.
  assert (Hd43 : d * 43 <= 42) by nra.
  unfold eps in *.
  split; [nra|]. split; [lra|].
  unfold py_ceil, float_mul, float_of_int. fold N.
  destruct (round_float_bounds N) as [Hal Hau]; [lra|].
  set (a := round_float N) in *. clearbody a. unfold eps in *.
  assert (Hpl : d * (1 - (1 # 9007199254740992))
                * (N * (1 - (1 # 9007199254740992))) <= t * a).
  { apply Qmult_le_mono; [nra|done|nra|done]. }
  assert (Hpu : t * a <= d * (1 + (1 # 9007199254740992))
                         * (N * (1 + (1 # 9007199254740992)))).
  { apply Qmult_le_mono; [nra|done|nra|done]. }
  assert (Hp : 0 < t * a) by nra.
  destruct (round_float_bounds _ Hp) as [Hxl Hxu].
  set (x := round_float (t * a)) in *. clearbody x. unfold eps in *.
  assert (Hx : 41 < x ∧ x < 43) by (split; nra).
  pose proof (Qle_ceiling x) as Hc1. pose proof (Qceiling_lt x) as Hc2.
  set (k := Qceiling x) in *. clearbody k.
  assert (H1 : inject_Z 41 < inject_Z k) by (change (inject_Z 41) with 41; lra).
  assert (H2 : inject_Z (k - 1) < inject_Z 43) by (change (inject_Z 43) with 43; lra).
  rewrite <-Zlt_Qlt in H1, H2. lia.
Qed.

Lemma sample_size_in_range (c : nat) :
  (1 ≤ Z.of_nat c < 2 ^ 48)%Z →
  (7 * Z.of_nat c - 5 ≤ 10 * Splitter.sample_size c ≤ 7 * Z.of_nat c + 5)%Z.
Proof. apply sample_size_bounds. Qed.

Lemma sample_size_1 : Splitter.sample_size 1 = 1%Z.
Proof. by vm_compute. Qed.

End FloatProofs.

(** * Properties of the splitter *)

Section ResultMonad.
Context {A B : Type} (f : A → result B).

Lemma mapM_result_nil : mapM f [] = Ok [].
Proof. reflexivity. Qed.

Lemma mapM_result_cons x l :
  mapM f (x :: l) = y ← f x; k ← mapM f l; Ok (y :: k).
Proof. reflexivity. Qed.

Lemma mapM_Ok_1 l k :
  mapM f l = Ok k → Forall2 (λ x y, f x = Ok y) l k.
Proof.
  revert k. induction l as [|x l IH]; intros k.
  - intros [= <-]. constructor.
  - rewrite mapM_result_cons. destruct (f x) as [y|] eqn:Hx; [|done].
    simpl. destruct (mapM f l) as [k'|]; [|done]. simpl.
    intros [= <-]. constructor; [done|]. by apply IH.
Qed.

Lemma mapM_Ok_2 l k :
  Forall2 (λ x y, f x = Ok y) l k → mapM f l = Ok k.
Proof.
  induction 1 as [|x y l k Hx _ IH]; [done|].
  rewrite mapM_result_cons, Hx. simpl. by rewrite IH.
Qed.

Lemma mapM_Ok_total l :
  (∀ x, x ∈ l → ∃ y, f x = Ok y) → ∃ k, mapM f l = Ok k.
Proof.
  induction l as [|x l IH]; intros Hf.
  - by exists [].
  - destruct (Hf x) as [y Hy]; [by left|].
    destruct IH as [k Hk]; [intros z Hz; apply Hf; by right|].
    exists (y :: k). by rewrite mapM_result_cons, Hy, Hk.
Qed.
End ResultMonad.

Section ListFacts.
Context {A : Type}.
Implicit Types l a : list A.

Lemma omap_lookup_S x a (idx : list nat) :
  omap ((x :: a) !!.) (S <$> idx) = omap (a !!.) idx.
Proof.
  induction idx as [|i idx IH]; [done|].
  rewrite fmap_cons. cbn [omap list_omap]. rewrite <-IH.
  by cbn [lookup list_lookup].
Qed.

Lemma omap_lookup_seq a : omap (a !!.) (seq 0 (length a)) = a.
Proof.
  induction a as [|x a IH]; [done|].
  cbn [length seq]. rewrite <-fmap_S_seq. cbn [omap list_omap].
  rewrite omap_lookup_S, IH. done.
Qed.

Lemma omap_lookup_Permutation a idx :
  idx ≡ₚ seq 0 (length a) → omap (a !!.) idx ≡ₚ a.
Proof. intros ->. by rewrite omap_lookup_seq. Qed.

Lemma length_omap_lookup a idx :
  Forall (λ i, i < length a) idx → length (omap (a !!.) idx) = length idx.
Proof.
  induction 1 as [|i idx Hi _ IH]; [done|]. simpl.
  apply lookup_lt_is_Some_2 in Hi as [x ->]. simpl. f_equal. exact IH.
Qed.

Lemma take_rows_Ok a idx :
  Forall (λ i, i < length a) idx →
  Splitter.take_rows a idx = Ok (omap (a !!.) idx).
Proof.
  intros Hidx. apply mapM_Ok_2.
  induction Hidx as [|i idx Hi _ IH]; simpl; [constructor|].
  apply lookup_lt_is_Some_2 in Hi as [x Hx]. rewrite Hx. simpl.
  constructor; [by rewrite Hx|done].
Qed.

Lemma take_rows_inv a idx l :
  Splitter.take_rows a idx = Ok l → l = omap (a !!.) idx.
Proof.
  intros H%mapM_Ok_1. induction H as [|i x idx l Hi _ IH]; [done|].
  simpl. destruct (a !! i); [|done]. injection Hi as ->. simpl.
  f_equal. exact IH.
Qed.

Lemma Forall_lt_Permutation_seq (idx : list nat) n :
  idx ≡ₚ seq 0 n → Forall (λ i, i < n) idx.
Proof.
  intros ->. apply Forall_forall. intros i Hi%elem_of_seq. lia.
Qed.

Lemma filter_split (P Q : A → Prop) `{∀ x, Decision (P x)} `{∀ x, Decision (Q x)} l :
  (∀ x, x ∈ l → (P x ∧ ¬ Q x) ∨ (¬ P x ∧ Q x)) →
  filter P l ++ filter Q l ≡ₚ l.
Proof.
  induction l as [|x l IH]; intros Hx; [done|].
  rewrite !filter_cons.
  assert (IH' : filter P l ++ filter Q l ≡ₚ l).
  { apply IH. intros y Hy. apply Hx. by right. }
  destruct (Hx x) as [[HP HQ]|[HP HQ]]; [by left|..].
  - rewrite (decide_True (P:=P x)), (decide_False (P:=Q x)) by done.
    simpl. by f_equiv.
  - rewrite (decide_False (P:=P x)), (decide_True (P:=Q x)) by done.
    rewrite <-Permutation_middle. by f_equiv.
Qed.
Lemma filter_none (P : A → Prop) `{∀ x, Decision (P x)} l :
  (∀ x, x ∈ l → ¬ P x) → filter P l = [].
Proof.
  induction l as [|x l IH]; intros Hx; [done|].
  rewrite filter_cons_False by (apply Hx; by left).
  apply IH. intros y Hy. apply Hx. by right.
Qed.

Lemma filter_all (P : A → Prop) `{∀ x, Decision (P x)} l :
  (∀ x, x ∈ l → P x) → filter P l = l.
Proof.
  induction l as [|x l IH]; intros Hx; [done|].
  rewrite filter_cons_True by (apply Hx; by left).
  f_equal. apply IH. intros y Hy. apply Hx. by right.
Qed.
End ListFacts.

Section Unique.
Import Splitter.

Lemma elem_of_unique l x : x ∈ unique l ↔ x ∈ l.
Proof.
  induction l as [|y l IH]; simpl; [done|].
  rewrite !elem_of_cons, list_elem_of_filter, IH.
  destruct (decide (x = y)); naive_solver.
Qed.

Lemma NoDup_unique l : NoDup (unique l).
Proof.
  induction l as [|y l IH]; simpl; [constructor|].
  constructor.
  - rewrite list_elem_of_filter. naive_solver.
  - by apply NoDup_filter.
Qed.

Lemma unique_nil_inv l : unique l = [] → l = [].
Proof. by destruct l. Qed.
End Unique.

Section SplitterProofs.
Import Float Splitter.

Variable permutation : nat → list nat.
Hypothesis permutation_perm : ∀ n, permutation n ≡ₚ seq 0 n.

Lemma length_permutation n : length (permutation n) = n.
Proof using permutation_perm. by rewrite permutation_perm, length_seq. Qed.

Lemma permutation_lt n : Forall (λ i, i < n) (permutation n).
Proof using permutation_perm. by apply Forall_lt_Permutation_seq. Qed.

(** The rows at the first [k] positions of the arrangement and the rows
    at the others are, together, the rows of the list. *)
Lemma take_drop_rows {A} (a : list A) k :
  omap (a !!.) (take k (permutation (length a)))
  ++ omap (a !!.) (drop k (permutation (length a))) ≡ₚ a.
Proof using permutation_perm.
  rewrite <-omap_app, take_drop. by apply omap_lookup_Permutation.
Qed.

Lemma length_take_rows {A} (a : list A) k :
  k ≤ length a →
  length (omap (a !!.) (take k (permutation (length a)))) = k.
Proof using permutation_perm.
  intros Hk. rewrite length_omap_lookup.
  - rewrite length_take, length_permutation. lia.
  - apply Forall_take, permutation_lt.
Qed.

(** *** Policy A *)

Lemma train_test_split_Ok {A} (a : list A) t (k : nat) :
  validate_shuffle_split (length a) t
    = Ok ((Z.of_nat (length a) - Z.of_nat k)%Z, Z.of_nat k) →
  0 < k < length a →
  train_test_split permutation a t
  = Ok (omap (a !!.) (drop k (permutation (length a))),
        omap (a !!.) (take k (permutation (length a)))).
Proof using permutation_perm.
  intros Hv Hk. unfold train_test_split. rewrite Hv. cbn [mbind result_bind fst snd].
  unfold validate_int_sizes.
  rewrite !decide_False by lia. cbn [mbind result_bind].
  rewrite Nat2Z.id.
  replace (Z.to_nat _) with (length a - k) by lia.
  rewrite (take_ge (drop k _))
    by (rewrite length_drop, length_permutation; lia).
  rewrite !take_rows_Ok; [done|..].
  - apply Forall_drop, permutation_lt.
  - apply Forall_take, permutation_lt.
Qed.

Lemma proteins_of_filter (df : DataFrame EncRow) (ps : list string) :
  NoDup ps → ps ⊆ proteins_of df →
  proteins_of (filter (λ ir, protein ir.2 ∈ ps) df) ≡ₚ ps.
Proof.
  intros Hnd Hsub. apply NoDup_Permutation; [apply NoDup_unique|done|].
  intros p. unfold proteins_of, column.
  rewrite elem_of_unique, list_elem_of_fmap. split.
  - intros (ir & -> & Hir%list_elem_of_filter). by destruct Hir.
  - intros Hp. pose proof (Hsub _ Hp) as Hin.
    unfold proteins_of, column in Hin.
    apply elem_of_unique, list_elem_of_fmap in Hin as (ir & -> & Hir).
    exists ir. split; [done|]. by apply list_elem_of_filter.
Qed.

Lemma elem_of_proteins_of (df : DataFrame EncRow) ir :
  ir ∈ df → protein ir.2 ∈ proteins_of df.
Proof.
  intros Hir. unfold proteins_of, column.
  apply elem_of_unique, list_elem_of_fmap. by exists ir.
Qed.

(** What Policy A returns once the two sizes are known. *)
Lemma split_new_proteins_eq (df : DataFrame EncRow) t (k : nat) :
  let n := length (proteins_of df) in
  int_truediv 42 (Z.of_nat n) = Ok t →
  validate_shuffle_split n t = Ok ((Z.of_nat n - Z.of_nat k)%Z, Z.of_nat k) →
  0 < k < n →
  ∃ train test,
    train_test_split_proteins permutation df true = Ok (train, test)
    ∧ train ++ test ≡ₚ df
    ∧ (∀ ir, ir ∈ train → ir ∉ test)
    ∧ (∀ p, p ∈ proteins_of train → p ∉ proteins_of test)
    ∧ length (proteins_of test) = k
    ∧ length (proteins_of train) = n - k.
Proof using permutation_perm.
  intros n Ht Hv Hk. unfold train_test_split_proteins.
  fold (proteins_of df). fold n. rewrite Ht. cbn [mbind result_bind].
  rewrite (train_test_split_Ok _ _ k) by done. cbn [mbind result_bind fst snd].
  set (ps := proteins_of df) in *.
  set (trp := omap (ps !!.) (drop k (permutation (length ps)))).
  set (tep := omap (ps !!.) (take k (permutation (length ps)))).
  assert (Hperm : tep ++ trp ≡ₚ ps) by apply take_drop_rows.
  assert (Hnd : NoDup (tep ++ trp)) by (rewrite Hperm; apply NoDup_unique).
  apply NoDup_app in Hnd as (Hnd1 & Hdisj & Hnd2).
  assert (Hte : tep ⊆ ps).
  { intros p Hp. rewrite <-Hperm. apply elem_of_app. by left. }
  assert (Htr : trp ⊆ ps).
  { intros p Hp. rewrite <-Hperm. apply elem_of_app. by right. }
  eexists _, _. split; [reflexivity|].
  split.
  { apply filter_split. intros ir Hir.
    pose proof (elem_of_proteins_of df ir Hir) as Hp. fold ps in Hp.
    rewrite <-Hperm in Hp. apply elem_of_app in Hp as [Hp|Hp].
    - right. split; [|done]. intros Hq. by eapply Hdisj.
    - left. split; [done|]. intros Hq. by eapply Hdisj. }
  split.
  { intros ir [H1 _]%list_elem_of_filter [H2 _]%list_elem_of_filter.
    by eapply Hdisj. }
  split.
  { intros p. rewrite !proteins_of_filter by done. intros H1 H2.
    by eapply Hdisj. }
  split.
  - rewrite proteins_of_filter by done. apply length_take_rows. lia.
  - rewrite proteins_of_filter by done.
    apply Permutation_length in Hperm. rewrite length_app in Hperm.
    fold n in Hperm.
    assert (length tep = k) by (apply length_take_rows; lia). lia.
Qed.

(** *** Policy B *)

Lemma NoDup_index_samples_of p (df : DataFrame EncRow) :
  NoDup (index df) → NoDup (index (samples_of p df)).
Proof.
  intros Hnd. apply (sublist_NoDup _ (index df)); [done|].
  unfold index, samples_of. apply fmap_sublist, sublist_filter.
Qed.

Lemma samples_of_protein p (df : DataFrame EncRow) ir :
  ir ∈ samples_of p df → protein ir.2 = p.
Proof. by intros [? _]%list_elem_of_filter. Qed.

(** The rows of a frame, grouped by protein, are the rows of the frame. *)
Lemma group_by_protein (df : DataFrame EncRow) (ps : list string) :
  NoDup ps →
  mjoin ((λ p, samples_of p df) <$> ps)
  ≡ₚ filter (λ ir, protein ir.2 ∈ ps) df.
Proof.
  induction 1 as [|p ps Hp Hnd IH]; simpl.
  - induction df as [|ir df IH]; [done|].
    rewrite filter_cons_False; [done|]. apply not_elem_of_nil.
  - rewrite IH. unfold samples_of. clear IH.
    induction df as [|ir df IH]; [done|].
    rewrite !filter_cons.
    destruct (decide (protein ir.2 = p)) as [Heq|Hne].
    + rewrite (decide_True (P:=protein ir.2 ∈ p :: ps))
        by (rewrite Heq; by left).
      rewrite (decide_False (P:=protein ir.2 ∈ ps)) by (by rewrite Heq).
      simpl. by f_equiv.
    + destruct (decide (protein ir.2 ∈ ps)) as [Hin|Hnin].
      * rewrite (decide_True (P:=protein ir.2 ∈ p :: ps)) by (by right).
        rewrite <-Permutation_middle. by f_equiv.
      * rewrite (decide_False (P:=protein ir.2 ∈ p :: ps)); [done|].
        intros [?|?]%elem_of_cons; done.
Qed.

Lemma group_by_proteins_of (df : DataFrame EncRow) :
  mjoin ((λ p, samples_of p df) <$> proteins_of df) ≡ₚ df.
Proof.
  rewrite group_by_protein by apply NoDup_unique.
  rewrite filter_all; [done|].
  intros ir Hir. by apply elem_of_proteins_of.
Qed.

(** What one turn of the loop returns, when it returns. *)
Lemma split_one_inv (df : DataFrame EncRow) p train_part test_part :
  NoDup (index df) →
  split_one permutation df p = Ok (train_part, test_part) →
  (sample_size (length (samples_of p df)) ≤ Z.of_nat (length (samples_of p df)))%Z
  ∧ length train_part = Z.to_nat (sample_size (length (samples_of p df)))
  ∧ train_part ++ test_part ≡ₚ samples_of p df.
Proof using permutation_perm.
  intros Hnd Hs. unfold split_one, sample in Hs.
  set (c := length (samples_of p df)) in *.
  set (size := sample_size c) in *. clearbody size.
  destruct (decide (Z.of_nat c < size)%Z) as [|Hle]; [done|].
  set (pd := samples_of p df) in *.
  rewrite take_rows_Ok in Hs by apply Forall_take, permutation_lt.
  cbn [mbind result_bind] in Hs.
  set (tp := omap (pd !!.) (take (Z.to_nat size) (permutation c))) in *.
  set (rest := omap (pd !!.) (drop (Z.to_nat size) (permutation c))).
  assert (Hperm : tp ++ rest ≡ₚ pd) by apply take_drop_rows.
  unfold drop_labels in Hs.
  destruct (decide (index tp ⊆ index pd)) as [_|Hn].
  2:{ destruct Hn. intros i Hi. unfold index in *.
      rewrite <-Hperm, fmap_app. apply elem_of_app. by left. }
  injection Hs as <- <-.
  split; [lia|]. split; [apply length_take_rows; lia|].
  rewrite <-Hperm at 2. f_equiv.
  assert (Hndi : NoDup (index (tp ++ rest))).
  { unfold index. rewrite Hperm. by apply NoDup_index_samples_of. }
  unfold index in Hndi. rewrite fmap_app in Hndi.
  apply NoDup_app in Hndi as (_ & Hdisj & _).
  rewrite <-Hperm, filter_app.
  rewrite filter_none, filter_all; [done|..].
  - intros ir Hir Hin. eapply Hdisj; [done|].
    apply list_elem_of_fmap. by exists ir.
  - intros ir Hir Hnin. apply Hnin.
    apply list_elem_of_fmap. by exists ir.
Qed.

Lemma split_one_Ok (df : DataFrame EncRow) p :
  (sample_size (length (samples_of p df)) ≤ Z.of_nat (length (samples_of p df)))%Z →
  ∃ part, split_one permutation df p = Ok part.
Proof using permutation_perm.
  intros Hsize. unfold split_one, sample.
  set (c := length (samples_of p df)) in *.
  set (size := sample_size c) in *. clearbody size.
  rewrite decide_False by lia.
  rewrite take_rows_Ok by apply Forall_take, permutation_lt.
  cbn [mbind result_bind]. unfold drop_labels.
  rewrite decide_True; [by eexists|].
  intros i (ir & -> & Hir)%list_elem_of_fmap.
  apply list_elem_of_fmap. exists ir. split; [done|].
  apply list_elem_of_omap in Hir as (j & _ & Hj).
  by eapply list_elem_of_lookup_2.
Qed.

Lemma split_one_protein (df : DataFrame EncRow) p part ir :
  NoDup (index df) →
  split_one permutation df p = Ok part →
  ir ∈ part.1 ++ part.2 → protein ir.2 = p.
Proof using permutation_perm.
  destruct part as [tp te]. intros Hnd Hs Hir.
  apply split_one_inv in Hs as (_ & _ & Hperm); [|done].
  rewrite Hperm in Hir. by eapply samples_of_protein.
Qed.

Section Parts.
Context (π : DataFrame EncRow * DataFrame EncRow → DataFrame EncRow).
Let R (q : string) part := ∀ ir, ir ∈ π part → protein ir.2 = q.

Lemma samples_of_join_other ps parts p :
  Forall2 R ps parts → p ∉ ps → samples_of p (mjoin (π <$> parts)) = [].
Proof.
  intros HR Hp. apply filter_none. intros ir Hir Heq.
  apply list_elem_of_join in Hir as (fr & Hir & Hfr).
  apply list_elem_of_fmap in Hfr as (part & -> & Hpart).
  apply list_elem_of_lookup in Hpart as [j Hj].
  destruct (Forall2_lookup_r _ _ _ _ _ HR Hj) as (q & Hq & Hqr).
  apply Hp. rewrite <-Heq, (Hqr ir Hir). by eapply list_elem_of_lookup_2.
Qed.

Lemma samples_of_join_own ps parts p part j :
  Forall2 R ps parts → NoDup ps →
  ps !! j = Some p → parts !! j = Some part →
  samples_of p (mjoin (π <$> parts)) = π part.
Proof.
  intros HR. revert j.
  induction HR as [|q part0 ps parts Hq HR IH]; intros j Hnd Hp Hpart; [done|].
  apply NoDup_cons in Hnd as [Hq' Hnd].
  rewrite fmap_cons.
  change (mjoin (π part0 :: (π <$> parts)))
    with (π part0 ++ mjoin (π <$> parts)).
  unfold samples_of. rewrite filter_app.
  fold (samples_of p (π part0)). fold (samples_of p (mjoin (π <$> parts))).
  destruct j as [|j]; simplify_eq/=.
  - rewrite (samples_of_join_other ps) by done.
    rewrite app_nil_r. apply filter_all. intros ir Hir. by apply Hq.
  - rewrite (IH j) by done.
    unfold samples_of. rewrite filter_none; [done|].
    intros ir Hir Heq. apply Hq'. rewrite <-(Hq ir Hir), Heq.
    by eapply list_elem_of_lookup_2.
Qed.
End Parts.

Lemma join_parts (df : DataFrame EncRow) ps
    (parts : list (DataFrame EncRow * DataFrame EncRow)) :
  Forall2 (λ p part, part.1 ++ part.2 ≡ₚ samples_of p df) ps parts →
  mjoin (fst <$> parts) ++ mjoin (snd <$> parts)
  ≡ₚ mjoin ((λ p, samples_of p df) <$> ps).
Proof.
  induction 1 as [|p part ps parts Hp _ IH]; [done|].
  rewrite !fmap_cons.
  change (mjoin (?x :: ?l)) with (x ++ mjoin l).
  rewrite <-IH, <-Hp.
  rewrite <-!(assoc_L (++)). f_equiv.
  rewrite !(assoc_L (++)). f_equiv. apply Permutation_app_comm.
Qed.

(** What Policy B returns, when it returns. *)
Lemma split_seen_inv (df : DataFrame EncRow) train test :
  train_test_split_proteins permutation df false = Ok (train, test) →
  ∃ parts,
    Forall2 (λ p part, split_one permutation df p = Ok part)
      (proteins_of df) parts
    ∧ train = mjoin (fst <$> parts) ∧ test = mjoin (snd <$> parts).
Proof.
  unfold train_test_split_proteins. fold (proteins_of df).
  destruct (mapM _ _) as [parts|] eqn:Hm; [|done].
  apply mapM_Ok_1 in Hm. cbn [mbind result_bind].
  intros Hc. exists parts. split; [done|].
  destruct parts as [|part parts]; [done|].
  cbn [fmap list_fmap concat mbind result_bind] in Hc. by injection Hc as <- <-.
Qed.

Lemma split_seen_Ok (df : DataFrame EncRow) :
  df ≠ [] →
  (∀ p, p ∈ proteins_of df → ∃ part, split_one permutation df p = Ok part) →
  ∃ train test,
    train_test_split_proteins permutation df false = Ok (train, test).
Proof.
  intros Hne Hp. unfold train_test_split_proteins. fold (proteins_of df).
  destruct (mapM_Ok_total _ _ Hp) as [parts Hparts].
  rewrite Hparts. cbn [mbind result_bind].
  apply mapM_Ok_1, Forall2_length in Hparts.
  destruct parts as [|part parts].
  - destruct df; [done|]. done.
  - by eexists _, _.
Qed.

Lemma samples_of_nonempty (df : DataFrame EncRow) p :
  p ∈ proteins_of df → 1 ≤ length (samples_of p df) ≤ length df.
Proof.
  intros Hp. split; [|apply length_filter].
  unfold proteins_of, column in Hp.
  apply elem_of_unique, list_elem_of_fmap in Hp as (ir & -> & Hir).
  assert (Hin : ir ∈ samples_of (protein ir.2) df)
    by (by apply list_elem_of_filter).
  destruct (samples_of _ df); [by apply not_elem_of_nil in Hin|simpl; lia].
Qed.

Lemma proteins_of_samples (df : DataFrame EncRow) p :
  1 ≤ length (samples_of p df) → p ∈ proteins_of df.
Proof.
  intros Hc. destruct (samples_of p df) as [|ir l] eqn:Hs; [simpl in Hc; lia|].
  assert (Hin : ir ∈ samples_of p df) by (rewrite Hs; by left).
  apply list_elem_of_filter in Hin as [<- Hin].
  by apply elem_of_proteins_of.
Qed.

(** Policy B returns for a frame of reasonable size, and the rows of a
    protein are dealt out between the two sides with
    [round(0.7 * count)] of them in [train]. *)
Lemma split_seen_protein (df : DataFrame EncRow) p :
  NoDup (index df) → (Z.of_nat (length df) < 2 ^ 48)%Z →
  p ∈ proteins_of df →
  ∃ train test,
    train_test_split_proteins permutation df false = Ok (train, test)
    ∧ (7 * Z.of_nat (length (samples_of p df)) - 5
       ≤ 10 * sample_size (length (samples_of p df))
       ≤ 7 * Z.of_nat (length (samples_of p df)) + 5)%Z
    ∧ length (samples_of p train)
      = Z.to_nat (sample_size (length (samples_of p df)))
    ∧ samples_of p train ++ samples_of p test ≡ₚ samples_of p df.
Proof using permutation_perm.
  intros Hnd Hlen Hp.
  assert (Hsize : ∀ q, q ∈ proteins_of df →
    (7 * Z.of_nat (length (samples_of q df)) - 5
     ≤ 10 * sample_size (length (samples_of q df))
     ≤ 7 * Z.of_nat (length (samples_of q df)) + 5)%Z).
  { intros q Hq. pose proof (samples_of_nonempty df q Hq).
    apply sample_size_in_range. lia. }
  destruct (split_seen_Ok df) as (train & test & Hs).
  { intros ->. by apply not_elem_of_nil in Hp. }
  { intros q Hq. apply split_one_Ok.
    pose proof (samples_of_nonempty df q Hq). specialize (Hsize q Hq).
    lia. }
  exists train, test. split; [done|].
  apply split_seen_inv in Hs as (parts & Hparts & -> & ->).
  apply list_elem_of_lookup in Hp as [j Hj].
  destruct (Forall2_lookup_l _ _ _ _ _ Hparts Hj) as (part & Hpart & Hone).
  assert (Hfst : samples_of p (mjoin (fst <$> parts)) = part.1).
  { apply (samples_of_join_own fst (proteins_of df) parts p part j);
      [|apply NoDup_unique|done..].
    eapply Forall2_impl; [done|]. intros q part' Hq ir Hir.
    apply (split_one_protein df q part' ir Hnd Hq).
    apply elem_of_app. by left. }
  assert (Hsnd : samples_of p (mjoin (snd <$> parts)) = part.2).
  { apply (samples_of_join_own snd (proteins_of df) parts p part j);
      [|apply NoDup_unique|done..].
    eapply Forall2_impl; [done|]. intros q part' Hq ir Hir.
    apply (split_one_protein df q part' ir Hnd Hq).
    apply elem_of_app. by right. }
  rewrite Hfst, Hsnd. destruct part as [tp te].
  apply split_one_inv in Hone as (_ & Hl & Hperm); [|done].
  split; [|done]. apply Hsize. by eapply list_elem_of_lookup_2.
Qed.

(** C3. Under Policy B, for a frame with unique index labels (and fewer
    than 2^48 rows) and a protein with at least two rows in it, the
    split returns, both sides hold at least one row of that protein,
    every row of the protein is on one side, and the number of its
    rows in [train] is within one half of seven tenths of their
    number. *)
Theorem split_seen_proteins_share (df : DataFrame EncRow) p :
  NoDup (index df) → (Z.of_nat (length df) < 2 ^ 48)%Z →
  2 ≤ length (samples_of p df) →
  ∃ train test,
    train_test_split_proteins permutation df false = Ok (train, test)
    ∧ 1 ≤ length (samples_of p train)
    ∧ 1 ≤ length (samples_of p test)
    ∧ length (samples_of p train) + length (samples_of p test)
      = length (samples_of p df)
    ∧ (7 * Z.of_nat (length (samples_of p df)) - 5
       ≤ 10 * Z.of_nat (length (samples_of p train))
       ≤ 7 * Z.of_nat (length (samples_of p df)) + 5)%Z.
Proof using permutation_perm.
  intros Hnd Hlen Hc.
  destruct (split_seen_protein df p Hnd Hlen) as (train & test & Hs & Hb & Hl & Hperm).
  { apply proteins_of_samples. lia. }
  exists train, test. split; [done|].
  apply Permutation_length in Hperm. rewrite length_app in Hperm.
  lia.
Qed.

(** C10. Under Policy B, for a frame with unique index labels (and
    fewer than 2^48 rows) and a protein with exactly one row in it, the
    split returns, that row is in [train] and [test] has no row of the
    protein. *)
Theorem split_seen_proteins_single (df : DataFrame EncRow) p :
  NoDup (index df) → (Z.of_nat (length df) < 2 ^ 48)%Z →
  length (samples_of p df) = 1 →
  ∃ train test,
    train_test_split_proteins permutation df false = Ok (train, test)
    ∧ samples_of p train = samples_of p df
    ∧ samples_of p test = [].
Proof using permutation_perm.
  intros Hnd Hlen Hc.
  destruct (split_seen_protein df p Hnd Hlen) as (train & test & Hs & Hb & Hl & Hperm).
  { apply proteins_of_samples. lia. }
  exists train, test. split; [done|].
  rewrite Hc, sample_size_1 in Hl. clear Hb.
  destruct (samples_of p df) as [|ir [|??]]; [done| |done].
  apply Permutation_singleton_r in Hperm.
  destruct (samples_of p train) as [|ir' [|??]]; [done| |done].
  by injection Hperm as -> ->.
Qed.

Lemma train_test_split_inv {A} (a : list A) t tt :
  train_test_split permutation a t = Ok tt →
  ∃ k, validate_shuffle_split (length a) t
         = Ok ((Z.of_nat (length a) - Z.of_nat k)%Z, Z.of_nat k)
       ∧ 0 < k < length a.
Proof.
  unfold train_test_split.
  destruct (validate_shuffle_split _ _) as [[n_train n_test]|] eqn:Hv; [|done].
  cbn [mbind result_bind fst snd]. unfold validate_int_sizes.
  repeat case_decide; try done. intros _.
  exists (Z.to_nat n_test). split; [|lia].
  unfold validate_shuffle_split in Hv.
  destruct (_ || _); [done|]. case_decide; [done|].
  injection Hv as <- <-. rewrite Z2Nat.id by lia. done.
Qed.

(** C4. For both policies and a frame with unique index labels, when
    the split returns, the rows of [train] followed by those of [test]
    are a rearrangement of the rows of the frame (none is dropped, none
    is added) and no row is on both sides. *)
Theorem split_partition (df : DataFrame EncRow) new_proteins train test :
  NoDup (index df) →
  train_test_split_proteins permutation df new_proteins = Ok (train, test) →
  train ++ test ≡ₚ df ∧ (∀ ir, ir ∈ train → ir ∉ test).
Proof using permutation_perm.
  intros Hnd Hs.
  assert (Hperm : train ++ test ≡ₚ df).
  { destruct new_proteins.
    - pose proof Hs as Hs'. unfold train_test_split_proteins in Hs'.
      fold (proteins_of df) in Hs'.
      destruct (int_truediv _ _) as [t|] eqn:Ht; [|done].
      cbn [mbind result_bind] in Hs'.
      destruct (train_test_split _ _ _) as [tt|] eqn:Htt; [|done].
      apply train_test_split_inv in Htt as (k & Hv & Hk).
      destruct (split_new_proteins_eq df t k Ht Hv Hk)
        as (train' & test' & Hs'' & Hp & _).
      rewrite Hs in Hs''. by injection Hs'' as <- <-.
    - apply split_seen_inv in Hs as (parts & Hparts & -> & ->).
      rewrite (join_parts df (proteins_of df)).
      + apply group_by_proteins_of.
      + eapply Forall2_impl; [done|]. intros q [tp te] Hq.
        by apply split_one_inv in Hq as (_ & _ & Hq). }
  split; [done|].
  assert (Hndr : NoDup (train ++ test)).
  { rewrite Hperm. by eapply NoDup_fmap_1. }
  apply NoDup_app in Hndr as (_ & Hd & _). done.
Qed.

Lemma validate_shuffle_split_43 :
  validate_shuffle_split 43 (round_float (42 / 43)) = Ok (1%Z, 42%Z).
Proof. by vm_compute. Qed.

Lemma validate_shuffle_split_75 :
  validate_shuffle_split 75 (round_float (42 / 75)) = Ok (32%Z, 43%Z).
Proof. by vm_compute. Qed.

Lemma validate_shuffle_split_few :
  forallb (λ n, match validate_shuffle_split n
                        (round_float (42 / inject_Z (Z.of_nat n))) with
                | Raise ValueError => true
                | _ => false
                end) (seq 1 42) = true.
Proof. by vm_compute. Qed.

(** X8. With more than 42 proteins Policy A returns, no protein is on both
    sides, and 42 or 43 proteins are held out. *)
Lemma split_new_proteins (df : DataFrame EncRow) :
  let n := length (proteins_of df) in
  (43 ≤ Z.of_nat n < 2 ^ 48)%Z →
  ∃ train test,
    train_test_split_proteins permutation df true = Ok (train, test)
    ∧ train ++ test ≡ₚ df
    ∧ (∀ p, p ∈ proteins_of train → p ∉ proteins_of test)
    ∧ (length (proteins_of test) = 42 ∨ length (proteins_of test) = 43).
Proof using permutation_perm.
  intros n Hn.
  assert (∃ t k, int_truediv 42 (Z.of_nat n) = Ok t
                 ∧ validate_shuffle_split n t
                   = Ok ((Z.of_nat n - Z.of_nat k)%Z, Z.of_nat k)
                 ∧ (k = 42 ∨ k = 43) ∧ 0 < k < n) as (t & k & Ht & Hv & Hk & Hkn).
  { destruct (decide (n = 43)) as [->|Hne].
    - exists (round_float (42 / 43)), 42. split; [done|].
      split; [exact validate_shuffle_split_43|]. lia.
    - destruct (int_truediv 42 (Z.of_nat n)) as [t|] eqn:Ht.
      2:{ unfold int_truediv in Ht. by rewrite decide_False in Ht by lia. }
      destruct (n_test_bounds _ _ Hn Ht) as (Ht0 & Ht1 & Hk).
      set (kz := py_ceil _) in Hk.
      exists t, (Z.to_nat kz). split; [done|].
      split; [|lia].
      unfold validate_shuffle_split.
      assert (Qle_bool t 0 = false) as ->.
      { apply not_true_is_false. rewrite Qle_bool_iff. lra. }
      assert (Qle_bool 1 t = false) as ->.
      { apply not_true_is_false. rewrite Qle_bool_iff. lra. }
      cbn [orb]. fold kz. rewrite decide_False by lia.
      by rewrite Z2Nat.id by lia. }
  destruct (split_new_proteins_eq df t k Ht Hv Hkn)
    as (train & test & Hs & Hp & _ & Hd & Hl & _).
  exists train, test. do 3 (split; [done|]). lia.
Qed.

(** With 42 proteins or fewer Policy A raises. *)
Lemma split_new_proteins_few (df : DataFrame EncRow) :
  length (proteins_of df) ≤ 42 →
  raises (train_test_split_proteins permutation df true).
Proof.
  intros Hn. unfold train_test_split_proteins. fold (proteins_of df).
  set (n := length (proteins_of df)) in *.
  destruct (decide (n = 0)) as [->|Hn0].
  { by exists ZeroDivisionError. }
  unfold int_truediv. rewrite decide_False by lia. cbn [mbind result_bind].
  pose proof validate_shuffle_split_few as Hf.
  rewrite forallb_forall in Hf. specialize (Hf n).
  unfold train_test_split. change (inject_Z 42) with 42%Q.
  destruct (validate_shuffle_split _ _) as [?|[]]; [|by eexists..].
  exfalso. apply diff_false_true, Hf, in_seq. lia.
Qed.

(** C2 fails on the code for a frame with 75 proteins: 43 of them are
    held out, because the float [(42 / 75) * 75] is just above 42 and
    [ceil] makes 43 of it. *)
Theorem split_new_proteins_75 (df : DataFrame EncRow) :
  length (proteins_of df) = 75 →
  ∃ train test,
    train_test_split_proteins permutation df true = Ok (train, test)
    ∧ (∀ p, p ∈ proteins_of train → p ∉ proteins_of test)
    ∧ length (proteins_of test) = 43.
Proof using permutation_perm.
  intros Hn.
  destruct (split_new_proteins_eq df (round_float (42 / 75)) 43)
    as (train & test & Hs & _ & _ & Hd & Hl & _).
  - by rewrite Hn.
  - rewrite Hn. exact validate_shuffle_split_75.
  - lia.
  - by exists train, test.
Qed.

End SplitterProofs.

Section SplitterExamples.
Import Float Splitter Samples.

(** The float model agrees with the standard library's IEEE 754
    specification where the splitter's two roundings are delicate. *)
Example float_mul_frac_45 :
  float_mul frac (float_of_int 45)
  = Qred (SF2Q (binary64_mul (S754_finite false 6305039478318694 (-53))
                             (binary64_of_Z 45))).
Proof. by vm_compute. Qed.

Example round_frac_45 : sample_size 45 = 31%Z.
Proof. by vm_compute. Qed.

Example float_42_div_75_mul_75 :
  float_mul (round_float (42 / 75)) (float_of_int 75)
  = Qred (SF2Q (binary64_mul (binary64_div (binary64_of_Z 42) (binary64_of_Z 75))
                             (binary64_of_Z 75))).
Proof. by vm_compute. Qed.

Example ceil_42_div_75_mul_75 :
  py_ceil (float_mul (round_float (42 / 75)) (float_of_int 75)) = 43%Z.
Proof. by vm_compute. Qed.

Example split_seen_index :
  (λ tt, (index tt.1, index tt.2))
    <$> train_test_split_proteins (seq 0) df_seen false
  = Ok ([0; 1; 2], [3]).
Proof. by vm_compute. Qed.

Example split_new_50_index :
  (λ tt, (index tt.1, index tt.2))
    <$> train_test_split_proteins (seq 0) (df_distinct 50) true
  = Ok (seq 42 8, seq 0 42).
Proof. by vm_compute. Qed.

Example split_new_42_raises :
  train_test_split_proteins (seq 0) (df_distinct 42) true = Raise ValueError.
Proof. by vm_compute. Qed.

Example split_seen_empty_raises :
  train_test_split_proteins (seq 0) ([] : DataFrame EncRow) false
  = Raise ValueError.
Proof. reflexivity. Qed.

Lemma split_new_proteins_75_witness :
  (∀ n, seq 0 n ≡ₚ seq 0 n)
  ∧ length (proteins_of (df_distinct 75)) = 75
  ∧ ∃ train test,
      train_test_split_proteins (seq 0) (df_distinct 75) true = Ok (train, test)
      ∧ (∀ p, p ∈ proteins_of train → p ∉ proteins_of test)
      ∧ length (proteins_of test) = 43.
Proof.
  split; [reflexivity|]. split; [vm_compute; reflexivity|].
  apply (split_new_proteins_75 (seq 0)).
  - reflexivity.
  - vm_compute. reflexivity.
Defined.

Lemma NoDup_index_df_seen : NoDup (index df_seen).
Proof. apply (bool_decide_unpack _). vm_compute. exact I. Defined.

Lemma split_seen_proteins_share_witness :
  (∀ n, seq 0 n ≡ₚ seq 0 n)
  ∧ NoDup (index df_seen)
  ∧ (Z.of_nat (length df_seen) < 2 ^ 48)%Z
  ∧ 2 ≤ length (samples_of "P1" df_seen)
  ∧ ∃ train test,
      train_test_split_proteins (seq 0) df_seen false = Ok (train, test)
      ∧ 1 ≤ length (samples_of "P1" train)
      ∧ 1 ≤ length (samples_of "P1" test)
      ∧ length (samples_of "P1" train) + length (samples_of "P1" test)
        = length (samples_of "P1" df_seen)
      ∧ (7 * Z.of_nat (length (samples_of "P1" df_seen)) - 5
         ≤ 10 * Z.of_nat (length (samples_of "P1" train))
         ≤ 7 * Z.of_nat (length (samples_of "P1" df_seen)) + 5)%Z.
Proof.
  split; [reflexivity|]. split; [exact NoDup_index_df_seen|].
  split; [vm_compute; reflexivity|]. split; [vm_compute; lia|].
  apply (split_seen_proteins_share (seq 0)).
  - reflexivity.
  - exact NoDup_index_df_seen.
  - vm_compute. reflexivity.
  - vm_compute. lia.
Defined.

Lemma split_seen_proteins_single_witness :
  (∀ n, seq 0 n ≡ₚ seq 0 n)
  ∧ NoDup (index df_seen)
  ∧ (Z.of_nat (length df_seen) < 2 ^ 48)%Z
  ∧ length (samples_of "P2" df_seen) = 1
  ∧ ∃ train test,
      train_test_split_proteins (seq 0) df_seen false = Ok (train, test)
      ∧ samples_of "P2" train = samples_of "P2" df_seen
      ∧ samples_of "P2" test = [].
Proof.
  split; [reflexivity|]. split; [exact NoDup_index_df_seen|].
  split; [vm_compute; reflexivity|]. split; [vm_compute; reflexivity|].
  apply (split_seen_proteins_single (seq 0)).
  - reflexivity.
  - exact NoDup_index_df_seen.
  - vm_compute. reflexivity.
  - vm_compute. reflexivity.
Defined.

Lemma split_partition_witness :
  (∀ n, seq 0 n ≡ₚ seq 0 n)
  ∧ NoDup (index df_seen)
  ∧ train_test_split_proteins (seq 0) df_seen false
    = Ok (take 3 df_seen, drop 3 df_seen)
  ∧ take 3 df_seen ++ drop 3 df_seen ≡ₚ df_seen
  ∧ (∀ ir, ir ∈ take 3 df_seen → ir ∉ drop 3 df_seen).
Proof.
  split; [reflexivity|]. split; [exact NoDup_index_df_seen|].
  split; [vm_compute; reflexivity|].
  apply (split_partition (seq 0)) with (new_proteins := false).
  - reflexivity.
  - exact NoDup_index_df_seen.
  - vm_compute. reflexivity.
Defined.

End SplitterExamples.

(** * Properties of the network *)

Section NetworkProofs.
Import Network.
Local Open Scope R_scope.

Lemma Linear_row_length l x :
  Linear_shape l → length (Linear_row l x) = out_features l.
Proof.
  intros (Hw & _ & Hb). unfold Linear_row.
  rewrite length_zip_with, Hw, Hb. lia.
Qed.

Lemma Linear_forward_shape l n x :
  Linear_shape l → has_shape n (in_features l) x →
  Linear_forward l x = Ok (Linear_row l <$> x)
  ∧ has_shape n (out_features l) (Linear_row l <$> x).
Proof.
  intros Hl [Hn Hx]. unfold Linear_forward.
  rewrite decide_True by done. split; [done|]. split.
  - by rewrite length_fmap.
  - apply Forall_fmap, Forall_forall. intros r _. simpl.
    by apply Linear_row_length.
Qed.

Lemma normalize_length bn mu sigma2 r :
  length (normalize bn mu sigma2 r) = length r.
Proof. unfold normalize. by rewrite length_imap. Qed.

Lemma BatchNorm1d_forward_shape training bn n x :
  has_shape n (num_features bn) x →
  (training = true → n ≠ 1%nat) →
  ∃ y, BatchNorm1d_forward training bn x = Ok y
       ∧ has_shape n (num_features bn) y.
Proof.
  intros [Hn Hx] Ht. unfold BatchNorm1d_forward.
  rewrite decide_True by done.
  assert (Hmap : ∀ mu sigma2,
    has_shape n (num_features bn) (normalize bn mu sigma2 <$> x)).
  { intros mu sigma2. split; [by rewrite length_fmap|].
    apply Forall_fmap. eapply Forall_impl; [exact Hx|].
    intros r Hr. simpl. by rewrite normalize_length. }
  destruct training.
  - rewrite decide_False by (rewrite Hn; by apply Ht).
    eexists. split; [done|]. apply Hmap.
  - eexists. split; [done|]. apply Hmap.
Qed.

Lemma ReLU_shape n width x : has_shape n width x → has_shape n width (ReLU x).
Proof.
  intros [Hn Hx]. split; [by unfold ReLU; rewrite length_fmap|].
  unfold ReLU. apply Forall_fmap. eapply Forall_impl; [exact Hx|].
  intros r Hr. simpl. by rewrite length_fmap.
Qed.

Lemma ReLU_nonneg x r a : r ∈ ReLU x → a ∈ r → 0 <= a.
Proof.
  unfold ReLU. intros (r' & -> & _)%list_elem_of_fmap (a' & -> & _)%list_elem_of_fmap.
  apply Rmax_l.
Qed.

(** A layer with one output feature gives each row one number, the
    weighted sum of the row plus the bias. *)
Lemma Linear_row_scalar l :
  Linear_shape l → out_features l = 1%nat →
  ∃ w b, weight l = [w] ∧ bias l = [b]
         ∧ ∀ x, Linear_row l x = [dot w x + b].
Proof.
  intros (Hw & _ & Hb) Ho. rewrite Ho in Hw, Hb.
  destruct (weight l) as [|w [|??]] eqn:Ew; try done.
  destruct (bias l) as [|b [|??]] eqn:Eb; try done.
  exists w, b. do 2 (split; [done|]). intros x.
  unfold Linear_row. by rewrite Ew, Eb.
Qed.

(** X12. For a network built by [__init__(input_size)] and a batch of rows
    of [input_size] numbers (not a single row when training), [forward]
    returns: it applies the linear transform [fc1] into 512 features,
    batch normalisation and ReLU, then [fc2] into 256 features, batch
    normalisation and ReLU, then [fc3] into 128 features, batch
    normalisation and ReLU, and last [fc4] into one feature, whose value
    (the weighted sum plus the bias) is the output, unchanged. *)
Theorem forward_structure training input_size net n x :
  init_shape input_size net →
  has_shape n input_size x →
  (training = true → n ≠ 1%nat) →
  ∃ n1 n2 n3 w b,
    BatchNorm1d_forward training (bn1 net) (Linear_row (fc1 net) <$> x) = Ok n1
    ∧ has_shape n 512 (Linear_row (fc1 net) <$> x)
    ∧ has_shape n 512 (ReLU n1)
    ∧ BatchNorm1d_forward training (bn2 net) (Linear_row (fc2 net) <$> ReLU n1) = Ok n2
    ∧ has_shape n 256 (Linear_row (fc2 net) <$> ReLU n1)
    ∧ has_shape n 256 (ReLU n2)
    ∧ BatchNorm1d_forward training (bn3 net) (Linear_row (fc3 net) <$> ReLU n2) = Ok n3
    ∧ has_shape n 128 (Linear_row (fc3 net) <$> ReLU n2)
    ∧ has_shape n 128 (ReLU n3)
    ∧ weight (fc4 net) = [w] ∧ bias (fc4 net) = [b]
    ∧ forward training net x = Ok ((λ r, [dot w r + b]) <$> ReLU n3)
    ∧ has_shape n 1 ((λ r, [dot w r + b]) <$> ReLU n3).
Proof.
  intros ((Hi1 & Ho1 & Hl1) & (Hb1 & _) & (Hi2 & Ho2 & Hl2) & (Hb2 & _)
          & (Hi3 & Ho3 & Hl3) & (Hb3 & _) & (Hi4 & Ho4 & Hl4)) Hx Ht.
  rewrite <-Hi1 in Hx.
  destruct (Linear_forward_shape _ _ _ Hl1 Hx) as [E1 S1]. rewrite Ho1 in S1.
  pose proof S1 as S1'. rewrite <-Hb1 in S1'.
  destruct (BatchNorm1d_forward_shape training _ _ _ S1' Ht) as (n1 & E1' & S1'').
  rewrite Hb1 in S1''. apply ReLU_shape in S1''.
  pose proof S1'' as T1. rewrite <-Hi2 in T1.
  destruct (Linear_forward_shape _ _ _ Hl2 T1) as [E2 S2]. rewrite Ho2 in S2.
  pose proof S2 as S2'. rewrite <-Hb2 in S2'.
  destruct (BatchNorm1d_forward_shape training _ _ _ S2' Ht) as (n2 & E2' & S2'').
  rewrite Hb2 in S2''. apply ReLU_shape in S2''.
  pose proof S2'' as T2. rewrite <-Hi3 in T2.
  destruct (Linear_forward_shape _ _ _ Hl3 T2) as [E3 S3]. rewrite Ho3 in S3.
  pose proof S3 as S3'. rewrite <-Hb3 in S3'.
  destruct (BatchNorm1d_forward_shape training _ _ _ S3' Ht) as (n3 & E3' & S3'').
  rewrite Hb3 in S3''. apply ReLU_shape in S3''.
  pose proof S3'' as T3. rewrite <-Hi4 in T3.
  destruct (Linear_forward_shape _ _ _ Hl4 T3) as [E4 S4]. rewrite Ho4 in S4.
  destruct (Linear_row_scalar _ Hl4 Ho4) as (w & b & Hw & Hb & Hrow).
  assert (Hout : Linear_row (fc4 net) <$> ReLU n3
                 = (λ r, [dot w r + b]) <$> ReLU n3).
  { apply list_fmap_ext. intros _ r _. apply Hrow. }
  rewrite Hout in E4, S4.
  exists n1, n2, n3, w, b. do 11 (split; [done|]). split; [|done].
  unfold forward. rewrite E1. cbn [mbind result_bind]. rewrite E1'.
  cbn [mbind result_bind]. rewrite E2. cbn [mbind result_bind]. rewrite E2'.
  cbn [mbind result_bind]. rewrite E3. cbn [mbind result_bind]. rewrite E3'.
  cbn [mbind result_bind]. exact E4.
Qed.

End NetworkProofs.

Section NetworkExamples.
Import Network Samples.
Local Open Scope R_scope.

Lemma const_linear_shape i o b : Linear_shape (const_linear i o b).
Proof.
  unfold Linear_shape. simpl. rewrite !length_replicate.
  split; [done|]. split; [|done].
  apply Forall_replicate. by rewrite length_replicate.
Qed.

Lemma unit_bn_shape k : BatchNorm1d_shape (unit_bn k).
Proof. unfold BatchNorm1d_shape. simpl. by rewrite !length_replicate. Qed.

Lemma sample_net_shape input_size : init_shape input_size (sample_net input_size).
Proof.
  unfold init_shape. simpl.
  repeat split; try reflexivity;
    first [apply const_linear_shape | apply unit_bn_shape].
Defined.

Lemma forward_structure_witness :
  init_shape 2 (sample_net 2)
  ∧ has_shape 2 2 [[1; 2]; [3; 4]]
  ∧ (true = true → 2%nat ≠ 1%nat)
  ∧ ∃ n1 n2 n3 w b,
      BatchNorm1d_forward true (bn1 (sample_net 2))
        (Linear_row (fc1 (sample_net 2)) <$> [[1; 2]; [3; 4]]) = Ok n1
      ∧ has_shape 2 512 (Linear_row (fc1 (sample_net 2)) <$> [[1; 2]; [3; 4]])
      ∧ has_shape 2 512 (ReLU n1)
      ∧ BatchNorm1d_forward true (bn2 (sample_net 2))
          (Linear_row (fc2 (sample_net 2)) <$> ReLU n1) = Ok n2
      ∧ has_shape 2 256 (Linear_row (fc2 (sample_net 2)) <$> ReLU n1)
      ∧ has_shape 2 256 (ReLU n2)
      ∧ BatchNorm1d_forward true (bn3 (sample_net 2))
          (Linear_row (fc3 (sample_net 2)) <$> ReLU n2) = Ok n3
      ∧ has_shape 2 128 (Linear_row (fc3 (sample_net 2)) <$> ReLU n2)
      ∧ has_shape 2 128 (ReLU n3)
      ∧ weight (fc4 (sample_net 2)) = [w] ∧ bias (fc4 (sample_net 2)) = [b]
      ∧ forward true (sample_net 2) [[1; 2]; [3; 4]]
        = Ok ((λ r, [dot w r + b]) <$> ReLU n3)
      ∧ has_shape 2 1 ((λ r, [dot w r + b]) <$> ReLU n3).
Proof.
  assert (Hx : has_shape 2 2 [[1; 2]; [3; 4]]).
  { split; [reflexivity|]. repeat constructor. }
  split; [apply sample_net_shape|]. split; [exact Hx|].
  split; [intros _; lia|].
  apply (forward_structure true 2 (sample_net 2) 2 [[1; 2]; [3; 4]]).
  - apply sample_net_shape.
  - exact Hx.
  - intros _. lia.
Defined.

Lemma dot_zero k r : dot (replicate k 0) r = 0.
Proof.
  unfold dot, Rsum. revert r.
  induction k as [|k IH]; intros [|a r]; try reflexivity.
  cbn [replicate zip_with foldr]. rewrite IH. Lra.lra.
Qed.

End NetworkExamples.

(** * More about the encoder *)

Section EncoderMore.
Import Encoder.

Lemma chars_inj s1 s2 : chars s1 = chars s2 → s1 = s2.
Proof.
  intros H. rewrite <-(String.string_of_list_ascii_of_string s1),
    <-(String.string_of_list_ascii_of_string s2). unfold chars in H. by rewrite H.
Qed.

Lemma chars_app s1 s2 : chars (s1 +:+ s2) = chars s1 ++ chars s2.
Proof. induction s1 as [|a s1 IH]; simpl; [done|]. by rewrite <-IH. Qed.

Lemma len_app s1 s2 : len (s1 +:+ s2) = (len s1 + len s2)%nat.
Proof. by rewrite <-!length_chars, chars_app, length_app. Qed.

(** The values of an enumeration dictionary are positions plus one. *)
Lemma dict_of_enumerate_range l c v :
  dict_of_enumerate l !! c = Some v → (1 ≤ v ≤ Z.of_nat (length l))%Z.
Proof.
  revert v. induction l as [|x l IH] using rev_ind; intros v.
  - done.
  - rewrite dict_of_enumerate_snoc, length_app. simpl.
    destruct (decide (x = c)) as [->|Hne].
    + rewrite lookup_insert_eq. intros [= <-]. lia.
    + rewrite lookup_insert_ne by done. intros Hv%IH. lia.
Qed.

Lemma get0_range l c : (0 ≤ get0 (dict_of_enumerate l) c ≤ Z.of_nat (length l))%Z.
Proof.
  unfold get0. destruct (dict_of_enumerate l !! c) as [v|] eqn:Hv; simpl.
  - apply dict_of_enumerate_range in Hv. lia.
  - lia.
Qed.

Lemma encode_string_range l L s :
  Forall (λ v, 0 ≤ v ≤ Z.of_nat (length l))%Z (encode_string (dict_of_enumerate l) L s).
Proof.
  unfold encode_string. apply Forall_app. split.
  - apply Forall_fmap, Forall_forall. intros c _. apply get0_range.
  - apply Forall_replicate. lia.
Qed.

Lemma encode_sequences_inv set_iter (df : DataFrame Row) df' :
  encode_sequences set_iter df = Ok df' →
  ∃ Lq Ls,
    py_max (len <$> column Sequence df) = Ok Lq
    ∧ py_max (len <$> column SMILES df) = Ok Ls
    ∧ df' = (λ ir, (ir.1,
              {| sample := ir.2;
                 Encoded_Sequence := encode_string aa_to_num Lq (Sequence ir.2);
                 Encoded_SMILES :=
                   encode_string (char_to_num set_iter df) Ls (SMILES ir.2) |}))
            <$> df.
Proof.
  unfold encode_sequences.
  destruct (py_max (len <$> column Sequence df)) as [Lq|]; [|done].
  destruct (py_max (len <$> column SMILES df)) as [Ls|]; [|done].
  cbn [mbind result_bind]. intros [= <-]. by exists Lq, Ls.
Qed.

(** X1. [encode_sequences] raises exactly on the frame with no row, and
    what it raises there is the [ValueError] of [max] on an empty
    sequence; on every other frame it returns. *)
Theorem encode_sequences_raises_iff set_iter (df : DataFrame Row) :
  (∀ e, encode_sequences set_iter df = Raise e ↔ df = [] ∧ e = ValueError)
  ∧ (df ≠ [] → ∃ df', encode_sequences set_iter df = Ok df').
Proof.
  split.
  - intros e. split.
    + intros He. destruct df as [|ir df].
      * split; [done|]. unfold encode_sequences in He. simpl in He. congruence.
      * unfold encode_sequences in He. simpl in He. done.
    + intros [-> ->]. reflexivity.
  - intros Hne. destruct df as [|ir df]; [done|].
    unfold encode_sequences. simpl. by eexists.
Qed.

(** [encode_sequences] keeps the index labels. *)
Lemma encode_sequences_index set_iter (df : DataFrame Row) df' :
  encode_sequences set_iter df = Ok df' → index df' = index df.
Proof.
  intros (Lq & Ls & _ & _ & ->)%encode_sequences_inv.
  unfold index. by rewrite <-list_fmap_compose.
Qed.

(** Within the returned frame all vectors of one column have one
    length. *)
Lemma encode_sequences_lengths set_iter (df : DataFrame Row) df' i er j er' :
  encode_sequences set_iter df = Ok df' →
  (i, er) ∈ df' → (j, er') ∈ df' →
  length (Encoded_Sequence er) = length (Encoded_Sequence er')
  ∧ length (Encoded_SMILES er) = length (Encoded_SMILES er').
Proof.
  intros Henc Hi Hj.
  destruct (encode_sequences_no_overflow _ _ _ Henc i er Hi)
    as (Lq & Ls & [_ Hq] & [_ Hs] & E1 & E2).
  destruct (encode_sequences_no_overflow _ _ _ Henc j er' Hj)
    as (Lq' & Ls' & [Hq'' Hq'] & [Hs'' Hs'] & E1' & E2').
  destruct (encode_sequences_no_overflow _ _ _ Henc i er Hi)
    as (? & ? & [Hq0 _] & [Hs0 _] & E10 & E20).
  rewrite E10 in E1. rewrite E20 in E2. subst.
  specialize (Hq' _ Hq0). specialize (Hs' _ Hs0).
  specialize (Hq _ Hq''). specialize (Hs _ Hs''). lia.
Qed.

(** X2. [encode_sequences] keeps the rows, their order and their index
    labels, and within the returned frame all vectors of one column have
    one length. *)
Theorem encode_sequences_uniform set_iter (df : DataFrame Row) df' :
  encode_sequences set_iter df = Ok df' →
  index df' = index df
  ∧ column sample df' = df.*2
  ∧ ∀ i er j er', (i, er) ∈ df' → (j, er') ∈ df' →
      length (Encoded_Sequence er) = length (Encoded_Sequence er')
      ∧ length (Encoded_SMILES er) = length (Encoded_SMILES er').
Proof.
  intros Henc. split; [|split].
  - by apply (encode_sequences_index set_iter).
  - apply encode_sequences_inv in Henc as (Lq & Ls & _ & _ & ->).
    unfold column. by rewrite <-list_fmap_compose.
  - intros i er j er' Hi Hj.
    by apply (encode_sequences_lengths set_iter df df' i er j er').
Qed.

Lemma py_max_inv (l : list nat) m : py_max l = Ok m → is_max l m.
Proof.
  intros Hm. destruct (py_max_Ok l) as (m' & Hm' & Hmax).
  - intros ->. done.
  - rewrite Hm in Hm'. by injection Hm' as ->.
Qed.

Lemma pad_inj (a b : list Z) L :
  Forall (λ v, v ≠ 0%Z) a → Forall (λ v, v ≠ 0%Z) b →
  length a ≤ L → length b ≤ L →
  a ++ replicate (L - length a) 0%Z = b ++ replicate (L - length b) 0%Z →
  a = b.
Proof.
  intros Ha Hb Hla Hlb Heq.
  assert (Hlen : length a = length b).
  { destruct (Nat.lt_trichotomy (length a) (length b)) as [Hlt|[?|Hlt]]; [|done|].
    - exfalso.
      destruct (lookup_lt_is_Some_2 b (length a) Hlt) as [v Hv].
      assert (Hl : (a ++ replicate (L - length a) 0%Z) !! length a = Some 0%Z).
      { rewrite lookup_app_r by lia. rewrite Nat.sub_diag.
        apply lookup_replicate_2. lia. }
      rewrite Heq, lookup_app_l, Hv in Hl by done. injection Hl as ->.
      rewrite Forall_forall in Hb. eapply Hb; [|done].
      by eapply list_elem_of_lookup_2.
    - exfalso.
      destruct (lookup_lt_is_Some_2 a (length b) Hlt) as [v Hv].
      assert (Hl : (b ++ replicate (L - length b) 0%Z) !! length b = Some 0%Z).
      { rewrite lookup_app_r by lia. rewrite Nat.sub_diag.
        apply lookup_replicate_2. lia. }
      rewrite <-Heq, lookup_app_l, Hv in Hl by done. injection Hl as ->.
      rewrite Forall_forall in Ha. eapply Ha; [|done].
      by eapply list_elem_of_lookup_2. }
  by apply app_inj_1 in Heq as [-> _].
Qed.

Lemma fmap_inj_on {A B} (f : A → B) (l1 l2 : list A) :
  (∀ x y, x ∈ l1 → y ∈ l2 → f x = f y → x = y) →
  f <$> l1 = f <$> l2 → l1 = l2.
Proof.
  revert l2. induction l1 as [|x l1 IH]; intros [|y l2] Hinj Heq; try done.
  simpl in Heq. injection Heq as Hxy Heq.
  f_equal.
  - apply Hinj; [by left|by left|done].
  - apply IH; [|done]. intros x' y' Hx' Hy'. apply Hinj; by right.
Qed.

(** A vocabulary that knows every character of two strings and gives
    different characters different numbers, none of them 0, encodes the
    two strings differently. *)
Lemma encode_string_inj d L s1 s2 :
  (∀ c, c ∈ chars s1 ++ chars s2 → get0 d c ≠ 0%Z) →
  (∀ c c', c ∈ chars s1 → c' ∈ chars s2 → get0 d c = get0 d c' → c = c') →
  len s1 ≤ L → len s2 ≤ L →
  encode_string d L s1 = encode_string d L s2 → s1 = s2.
Proof.
  intros Hnz Hinj Hl1 Hl2 Heq. apply chars_inj.
  apply (fmap_inj_on (get0 d)); [done|].
  unfold encode_string in Heq.
  apply (pad_inj _ _ L).
  - apply Forall_fmap, Forall_forall. intros c Hc. apply Hnz, elem_of_app. by left.
  - apply Forall_fmap, Forall_forall. intros c Hc. apply Hnz, elem_of_app. by right.
  - by rewrite length_fmap, length_chars.
  - by rewrite length_fmap, length_chars.
  - rewrite !length_fmap, !length_chars.
    replace (L - len s1)%nat with (Z.to_nat (Z.of_nat L - Z.of_nat (len s1))) by lia.
    replace (L - len s2)%nat with (Z.to_nat (Z.of_nat L - Z.of_nat (len s2))) by lia.
    done.
Qed.

Lemma numbers_from_one_nonzero d l c :
  numbers_from_one d l → c ∈ l → get0 d c ≠ 0%Z.
Proof.
  intros [Hn _] [p Hp]%list_elem_of_lookup. rewrite (Hn p c Hp). lia.
Qed.

Lemma numbers_from_one_inj d l c c' :
  NoDup l → numbers_from_one d l → c ∈ l → c' ∈ l →
  get0 d c = get0 d c' → c = c'.
Proof.
  intros Hnd [Hn _] [p Hp]%list_elem_of_lookup [p' Hp']%list_elem_of_lookup.
  rewrite (Hn p c Hp), (Hn p' c' Hp'). intros Heq.
  assert (p = p') as -> by lia. congruence.
Qed.

(** X6. The protein vocabulary loses nothing on the twenty letters: two
    strings over the standard amino acids, no longer than [L], that have
    the same encoding are the same string. *)
Theorem encode_amino_acids_inj L s1 s2 :
  (∀ c, c ∈ chars s1 ++ chars s2 → c ∈ amino_acids) →
  len s1 ≤ L → len s2 ≤ L →
  encode_string aa_to_num L s1 = encode_string aa_to_num L s2 → s1 = s2.
Proof.
  intros Haa. apply encode_string_inj.
  - intros c Hc. eapply numbers_from_one_nonzero; [|by apply Haa].
    apply dict_numbers_from_one, NoDup_amino_acids.
  - intros c c' Hc Hc'.
    apply (numbers_from_one_inj aa_to_num amino_acids);
      [apply NoDup_amino_acids|apply dict_numbers_from_one, NoDup_amino_acids|..].
    + apply Haa, elem_of_app. by left.
    + apply Haa, elem_of_app. by right.
Qed.

(** X5. A residue letter outside the twenty is encoded like padding:
    appending such letters to a string does not change its encoding, as
    long as the result still fits the length. *)
Theorem encode_unknown_is_padding L s u :
  (∀ c, c ∈ chars u → c ∉ amino_acids) →
  len s + len u ≤ L →
  encode_string aa_to_num L (s +:+ u) = encode_string aa_to_num L s.
Proof.
  intros Hu Hlen. unfold encode_string.
  rewrite chars_app, fmap_app, len_app, <-(assoc_L (++)). f_equal.
  assert (Hz : get0 aa_to_num <$> chars u = replicate (len u) 0%Z).
  { rewrite <-length_chars. clear Hlen.
    induction (chars u) as [|c l IH]; [done|]. simpl. f_equal.
    - apply (dict_numbers_from_one amino_acids NoDup_amino_acids).
      apply Hu. by left.
    - apply IH. intros c' Hc'. apply Hu. by right. }
  rewrite Hz, <-replicate_add. f_equal. lia.
Qed.

Variable set_iter : gset ascii → list ascii.
Hypothesis set_iter_perm : ∀ s, set_iter s ≡ₚ elements s.

(** X3. Every number in an encoded protein sequence is between 0 and 20,
    and every number in an encoded SMILES string is between 0 and the
    number of different characters of the SMILES column. *)
Theorem encode_sequences_range (df : DataFrame Row) df' i er :
  encode_sequences set_iter df = Ok df' → (i, er) ∈ df' →
  Forall (λ v, 0 ≤ v ≤ 20)%Z (Encoded_Sequence er)
  ∧ Forall (λ v, 0 ≤ v ≤ Z.of_nat (size (char_set df)))%Z (Encoded_SMILES er).
Proof using set_iter_perm.
  intros (Lq & Ls & _ & _ & ->)%encode_sequences_inv
         ([j r] & [= -> ->] & _)%list_elem_of_fmap. simpl. split.
  - apply (encode_string_range amino_acids).
  - unfold char_to_num.
    replace (size (char_set df)) with (length (set_iter (char_set df))).
    + apply encode_string_range.
    + by rewrite set_iter_perm.
Qed.

(** X4. Inside an encoded SMILES string no character is encoded as 0,
    and within one frame the encoding determines the string: two rows
    with the same encoded SMILES have the same SMILES. *)
Theorem encode_smiles_inj (df : DataFrame Row) df' i er j er' :
  encode_sequences set_iter df = Ok df' →
  (i, er) ∈ df' → (j, er') ∈ df' →
  (∀ k, k < len (SMILES (sample er)) →
     ∃ v, Encoded_SMILES er !! k = Some v ∧ (1 ≤ v)%Z)
  ∧ (Encoded_SMILES er = Encoded_SMILES er' →
     SMILES (sample er) = SMILES (sample er')).
Proof using set_iter_perm.
  intros (Lq & Ls & _ & Hs & ->)%encode_sequences_inv
         ([i0 r] & [= -> ->] & Hr)%list_elem_of_fmap
         ([j0 r'] & [= -> ->] & Hr')%list_elem_of_fmap.
  cbn [sample Encoded_SMILES fst snd].
  apply py_max_inv in Hs as [_ Hmax].
  assert (Hin : ∀ i1 r1 c, (i1, r1) ∈ df → c ∈ chars (SMILES r1) →
                 c ∈ set_iter (char_set df)).
  { intros i1 r1 c H1 Hc. rewrite set_iter_perm. apply elem_of_elements.
    by eapply elem_of_char_set. }
  assert (Hlen : ∀ i1 r1, (i1, r1) ∈ df → len (SMILES r1) ≤ Ls).
  { intros i1 r1 H1. apply Hmax. apply list_elem_of_fmap.
    exists (SMILES r1). split; [done|]. apply list_elem_of_fmap. by exists (i1, r1). }
  assert (Hnum : numbers_from_one (char_to_num set_iter df) (set_iter (char_set df))).
  { apply dict_numbers_from_one. rewrite set_iter_perm. apply NoDup_elements. }
  split.
  - intros k Hk. rewrite <-length_chars in Hk.
    destruct (lookup_lt_is_Some_2 _ _ Hk) as [c Hc].
    destruct (encode_string_encoded (char_to_num set_iter df) Ls (SMILES r))
      as (_ & Henc & _); [by eapply Hlen|].
    eexists. split; [by apply Henc|].
    assert (Hc' : c ∈ set_iter (char_set df)).
    { apply (Hin i0 r c Hr). by eapply list_elem_of_lookup_2. }
    apply list_elem_of_lookup in Hc' as [p Hp].
    destruct Hnum as [Hn _]. rewrite (Hn p c Hp). lia.
  - apply encode_string_inj.
    + intros c [Hc|Hc]%elem_of_app;
        (eapply numbers_from_one_nonzero; [done|]).
      * by apply (Hin i0 r).
      * by apply (Hin j0 r').
    + intros c c' Hc Hc'.
      apply (numbers_from_one_inj _ (set_iter (char_set df))); [|done|..].
      * rewrite set_iter_perm. apply NoDup_elements.
      * by apply (Hin i0 r).
      * by apply (Hin j0 r').
    + by apply (Hlen i0 r).
    + by apply (Hlen j0 r').
Qed.

End EncoderMore.

Section EncoderMoreWitnesses.
Import Encoder Samples MoreSamples.

Example encode_df2 : encode_sequences elements df2 = Ok df2_encoded.
Proof. by vm_compute. Qed.

Lemma encode_sequences_uniform_witness :
  encode_sequences elements df2 = Ok df2_encoded
  ∧ index df2_encoded = index df2
  ∧ column sample df2_encoded = df2.*2
  ∧ ∀ i er j er', (i, er) ∈ df2_encoded → (j, er') ∈ df2_encoded →
      length (Encoded_Sequence er) = length (Encoded_Sequence er')
      ∧ length (Encoded_SMILES er) = length (Encoded_SMILES er').
Proof.
  split; [vm_compute; reflexivity|].
  apply (encode_sequences_uniform elements df2 df2_encoded).
  vm_compute. reflexivity.
Defined.

Lemma encode_amino_acids_inj_witness :
  (∀ c, c ∈ chars "AC" ++ chars "AC" → c ∈ amino_acids)
  ∧ len "AC" ≤ 3 ∧ len "AC" ≤ 3
  ∧ encode_string aa_to_num 3 "AC" = encode_string aa_to_num 3 "AC"
  ∧ "AC" = "AC".
Proof.
  assert (H : ∀ c, c ∈ chars "AC" ++ chars "AC" → c ∈ amino_acids).
  { apply Forall_forall. apply (bool_decide_unpack _). vm_compute. exact I. }
  split; [exact H|]. split; [simpl; lia|]. split; [simpl; lia|].
  split; [reflexivity|].
  apply (encode_amino_acids_inj 3 "AC" "AC" H); [simpl; lia|simpl; lia|reflexivity].
Defined.

Lemma encode_unknown_is_padding_witness :
  (∀ c, c ∈ chars "XZ" → c ∉ amino_acids)
  ∧ len "AC" + len "XZ" ≤ 5
  ∧ encode_string aa_to_num 5 ("AC" +:+ "XZ") = encode_string aa_to_num 5 "AC".
Proof.
  assert (H : ∀ c, c ∈ chars "XZ" → c ∉ amino_acids).
  { apply Forall_forall. apply (bool_decide_unpack _). vm_compute. exact I. }
  split; [exact H|]. split; [simpl; lia|].
  apply (encode_unknown_is_padding 5 "AC" "XZ" H). simpl; lia.
Defined.

Lemma encode_sequences_range_witness :
  (∀ s : gset ascii, elements s ≡ₚ elements s)
  ∧ encode_sequences elements df2 = Ok df2_encoded
  ∧ (0, enc1) ∈ df2_encoded
  ∧ Forall (λ v, 0 ≤ v ≤ 20)%Z (Encoded_Sequence enc1)
  ∧ Forall (λ v, 0 ≤ v ≤ Z.of_nat (size (char_set df2)))%Z (Encoded_SMILES enc1).
Proof.
  split; [reflexivity|]. split; [vm_compute; reflexivity|].
  split; [apply list_elem_of_here|].
  apply (encode_sequences_range elements) with (df' := df2_encoded) (i := 0).
  - reflexivity.
  - vm_compute. reflexivity.
  - apply list_elem_of_here.
Defined.

Lemma encode_smiles_inj_witness :
  (∀ s : gset ascii, elements s ≡ₚ elements s)
  ∧ encode_sequences elements df2 = Ok df2_encoded
  ∧ (0, enc1) ∈ df2_encoded ∧ (1, enc2) ∈ df2_encoded
  ∧ (∀ k, k < len (SMILES (sample enc1)) →
       ∃ v, Encoded_SMILES enc1 !! k = Some v ∧ (1 ≤ v)%Z)
  ∧ (Encoded_SMILES enc1 = Encoded_SMILES enc2 →
     SMILES (sample enc1) = SMILES (sample enc2)).
Proof.
  split; [reflexivity|]. split; [vm_compute; reflexivity|].
  split; [apply list_elem_of_here|].
  split; [apply list_elem_of_further, list_elem_of_here|].
  apply (encode_smiles_inj elements) with (df := df2) (df' := df2_encoded)
                                          (i := 0) (j := 1).
  - reflexivity.
  - vm_compute. reflexivity.
  - apply list_elem_of_here.
  - apply list_elem_of_further, list_elem_of_here.
Defined.

End EncoderMoreWitnesses.

(** * More about the splitter *)

Section SplitterMore.
Import Float Splitter.

Variable permutation : nat → list nat.
Hypothesis permutation_perm : ∀ n, permutation n ≡ₚ seq 0 n.

Lemma proteins_of_nil_inv (df : DataFrame EncRow) : proteins_of df = [] → df = [].
Proof. unfold proteins_of, column. by destruct df. Qed.

Lemma elem_of_proteins_of_inv (df : DataFrame EncRow) p :
  p ∈ proteins_of df → ∃ ir, ir ∈ df ∧ protein ir.2 = p.
Proof.
  unfold proteins_of, column.
  intros (ir & -> & Hir)%elem_of_unique%list_elem_of_fmap. by exists ir.
Qed.

(** X7. With 42 proteins or fewer Policy A raises: [ZeroDivisionError]
    on a frame with no row, [ValueError] otherwise. *)
Theorem split_new_proteins_few_raises (df : DataFrame EncRow) :
  length (proteins_of df) ≤ 42 →
  train_test_split_proteins permutation df true
  = Raise (match df with [] => ZeroDivisionError | _ => ValueError end).
Proof.
  intros Hn. destruct df as [|ir df0]; [done|].
  change (train_test_split_proteins permutation (ir :: df0) true = Raise ValueError).
  assert (Hne : ir :: df0 ≠ []) by done.
  revert Hn Hne. generalize (ir :: df0). intros df Hn Hne.
  unfold train_test_split_proteins, train_test_split. fold (proteins_of df).
  assert (Hn0 : length (proteins_of df) ≠ 0).
  { intros H0. apply Hne, proteins_of_nil_inv. by destruct (proteins_of df). }
  revert Hn Hn0. generalize (length (proteins_of df)). intros n Hn Hn0.
  unfold int_truediv. rewrite decide_False by lia. cbn [mbind result_bind].
  pose proof validate_shuffle_split_few as Hf.
  rewrite forallb_forall in Hf. specialize (Hf n).
  change (inject_Z 42) with 42%Q.
  destruct (validate_shuffle_split _ _) as [?|[]];
    cbn [mbind result_bind]; try reflexivity;
    exfalso; apply diff_false_true, Hf, in_seq; lia.
Qed.

(** X9. When Policy A returns, neither side is empty, each side consists
    of rows of the frame in their original order, and two rows with the
    same protein are on the same side. *)
Theorem split_new_proteins_sides (df : DataFrame EncRow) train test :
  train_test_split_proteins permutation df true = Ok (train, test) →
  train ≠ [] ∧ test ≠ []
  ∧ train `sublist_of` df ∧ test `sublist_of` df
  ∧ ∀ ir ir', ir ∈ df → ir' ∈ df → protein ir.2 = protein ir'.2 →
      (ir ∈ train ↔ ir' ∈ train) ∧ (ir ∈ test ↔ ir' ∈ test).
Proof using permutation_perm.
  intros Hs. pose proof Hs as Hs'.
  unfold train_test_split_proteins in Hs'. fold (proteins_of df) in Hs'.
  destruct (int_truediv _ _) as [t|] eqn:Ht; [|done].
  cbn [mbind result_bind] in Hs'.
  destruct (train_test_split _ _ _) as [tt|] eqn:Htt; [|done].
  cbn [mbind result_bind] in Hs'. injection Hs' as <- <-.
  apply train_test_split_inv in Htt as (k & Hv & Hk).
  destruct (split_new_proteins_eq permutation permutation_perm df t k Ht Hv Hk)
    as (train' & test' & Hs'' & _ & _ & _ & Hlte & Hltr).
  rewrite Hs in Hs''. injection Hs'' as <- <-.
  split; [|split; [|split; [|split]]].
  - intros Hnil. rewrite Hnil in Hltr. simpl in Hltr. lia.
  - intros Hnil. rewrite Hnil in Hlte. simpl in Hlte. lia.
  - apply sublist_filter.
  - apply sublist_filter.
  - intros ir ir' Hir Hir' Hp. rewrite !list_elem_of_filter, Hp. tauto.
Qed.

Lemma sample_size_le (c : nat) :
  (1 ≤ Z.of_nat c < 2 ^ 48)%Z →
  (1 ≤ sample_size c ≤ Z.of_nat c)%Z
  ∧ (2 ≤ c → (sample_size c < Z.of_nat c)%Z).
Proof. intros Hc. pose proof (sample_size_in_range c Hc). lia. Qed.

(** X10. For a frame of fewer than 2^48 rows, Policy B raises exactly
    when the frame has no row, and what it raises there is the
    [ValueError] of [pd.concat] on an empty list of frames. *)
Theorem split_seen_raises_iff (df : DataFrame EncRow) e :
  (Z.of_nat (length df) < 2 ^ 48)%Z →
  train_test_split_proteins permutation df false = Raise e
  ↔ df = [] ∧ e = ValueError.
Proof using permutation_perm.
  intros Hlen. split.
  - intros He. destruct (decide (df = [])) as [->|Hne].
    + split; [done|]. vm_compute in He. congruence.
    + destruct (split_seen_Ok permutation df Hne) as (train & test & Hs).
      * intros p Hp. apply (split_one_Ok permutation permutation_perm).
        pose proof (samples_of_nonempty df p Hp).
        apply sample_size_le. lia.
      * by rewrite Hs in He.
  - intros [-> ->]. reflexivity.
Qed.

(** Under either policy the two sides hold, together, the rows of the
    frame. *)
Lemma split_rows_perm (df : DataFrame EncRow) new_proteins train test :
  NoDup (index df) →
  train_test_split_proteins permutation df new_proteins = Ok (train, test) →
  train ++ test ≡ₚ df.
Proof using permutation_perm.
  intros Hnd Hs. destruct new_proteins.
  - pose proof Hs as Hs'. unfold train_test_split_proteins in Hs'.
    fold (proteins_of df) in Hs'.
    destruct (int_truediv _ _) as [t|] eqn:Ht; [|done].
    cbn [mbind result_bind] in Hs'.
    destruct (train_test_split _ _ _) as [tt|] eqn:Htt; [|done].
    apply train_test_split_inv in Htt as (k & Hv & Hk).
    destruct (split_new_proteins_eq permutation permutation_perm df t k Ht Hv Hk)
      as (train' & test' & Hs'' & Hp & _).
    rewrite Hs in Hs''. by injection Hs'' as <- <-.
  - apply split_seen_inv in Hs as (parts & Hparts & -> & ->).
    rewrite (join_parts df (proteins_of df)).
    + apply group_by_proteins_of.
    + eapply Forall2_impl; [done|]. intros q [tp te] Hq.
      by apply (split_one_inv permutation permutation_perm df q tp te Hnd)
        in Hq as (_ & _ & Hq).
Qed.

(** X11. When Policy B returns for a frame with unique index labels
    and fewer than 2^48 rows, every protein of the frame has a row in
    [train], and the proteins with a row in [test] are exactly those
    with at least two rows in the frame. *)
Theorem split_seen_proteins_sides (df : DataFrame EncRow) train test :
  NoDup (index df) → (Z.of_nat (length df) < 2 ^ 48)%Z →
  train_test_split_proteins permutation df false = Ok (train, test) →
  (∀ p, p ∈ proteins_of train ↔ p ∈ proteins_of df)
  ∧ (∀ p, p ∈ proteins_of test ↔ 2 ≤ length (samples_of p df)).
Proof using permutation_perm.
  intros Hnd Hlen Hs.
  pose proof (split_rows_perm df false train test Hnd Hs) as Hperm.
  assert (Hsub : ∀ ir, ir ∈ train ∨ ir ∈ test → ir ∈ df).
  { intros ir Hir. rewrite <-Hperm. by apply elem_of_app. }
  assert (Hcount : ∀ p, p ∈ proteins_of df →
    Z.of_nat (length (samples_of p train)) = sample_size (length (samples_of p df))
    ∧ (length (samples_of p train) + length (samples_of p test)
       = length (samples_of p df))%nat).
  { intros p Hp.
    destruct (split_seen_protein permutation permutation_perm df p Hnd Hlen Hp)
      as (train' & test' & Hs' & Hb & Hl & Hpp).
    rewrite Hs in Hs'. injection Hs' as <- <-.
    apply Permutation_length in Hpp. rewrite length_app in Hpp.
    split; [|done]. rewrite Hl. lia. }
  split; intros p; split.
  - intros (ir & Hir & <-)%elem_of_proteins_of_inv.
    apply elem_of_proteins_of, Hsub. by left.
  - intros Hp. destruct (Hcount p Hp) as [Hc _].
    pose proof (samples_of_nonempty df p Hp).
    apply proteins_of_samples.
    pose proof (sample_size_le (length (samples_of p df))). lia.
  - intros (ir & Hir & <-)%elem_of_proteins_of_inv.
    assert (Hp : protein ir.2 ∈ proteins_of df).
    { apply elem_of_proteins_of, Hsub. by right. }
    assert (Hin : ir ∈ samples_of (protein ir.2) test).
    { apply list_elem_of_filter. split; [reflexivity|exact Hir]. }
    assert (1 ≤ length (samples_of (protein ir.2) test)).
    { destruct (samples_of _ test) as [|? ?].
      - exfalso. eapply not_elem_of_nil, Hin.
      - cbn [length]. lia. }
    clear Hin.
    destruct (Hcount _ Hp) as [Hc Hsum].
    pose proof (samples_of_nonempty df _ Hp).
    destruct (decide (length (samples_of (protein ir.2) df) = 1)) as [H1|]; [|lia].
    rewrite H1, sample_size_1 in Hc. lia.
  - intros Hc2.
    assert (Hp : p ∈ proteins_of df) by (apply proteins_of_samples; lia).
    destruct (Hcount p Hp) as [Hc Hsum].
    pose proof (samples_of_nonempty df p Hp).
    apply proteins_of_samples.
    pose proof (sample_size_le (length (samples_of p df))). lia.
Qed.

End SplitterMore.

Section SplitterMoreWitnesses.
Import Float Splitter Samples.

Lemma split_new_proteins_few_raises_witness :
  length (proteins_of (df_distinct 42)) ≤ 42
  ∧ train_test_split_proteins (seq 0) (df_distinct 42) true
    = Raise (match df_distinct 42 with [] => ZeroDivisionError | _ => ValueError end).
Proof.
  assert (H : length (proteins_of (df_distinct 42)) ≤ 42).
  { vm_compute. lia. }
  split; [exact H|].
  exact (split_new_proteins_few_raises (seq 0) (df_distinct 42) H).
Defined.

Lemma split_new_proteins_witness :
  (∀ n, seq 0 n ≡ₚ seq 0 n)
  ∧ (43 ≤ Z.of_nat (length (proteins_of (df_distinct 50))) < 2 ^ 48)%Z
  ∧ ∃ train test,
      train_test_split_proteins (seq 0) (df_distinct 50) true = Ok (train, test)
      ∧ train ++ test ≡ₚ df_distinct 50
      ∧ (∀ p, p ∈ proteins_of train → p ∉ proteins_of test)
      ∧ (length (proteins_of test) = 42 ∨ length (proteins_of test) = 43).
Proof.
  assert (H : (43 ≤ Z.of_nat (length (proteins_of (df_distinct 50))) < 2 ^ 48)%Z).
  { vm_compute. split; [discriminate|reflexivity]. }
  split; [reflexivity|]. split; [exact H|].
  exact (split_new_proteins (seq 0) (λ n, reflexivity _) (df_distinct 50) H).
Defined.

Lemma split_new_proteins_sides_witness :
  (∀ n, seq 0 n ≡ₚ seq 0 n)
  ∧ train_test_split_proteins (seq 0) (df_distinct 50) true
    = Ok (drop 42 (df_distinct 50), take 42 (df_distinct 50))
  ∧ drop 42 (df_distinct 50) ≠ [] ∧ take 42 (df_distinct 50) ≠ []
  ∧ drop 42 (df_distinct 50) `sublist_of` df_distinct 50
  ∧ take 42 (df_distinct 50) `sublist_of` df_distinct 50
  ∧ ∀ ir ir', ir ∈ df_distinct 50 → ir' ∈ df_distinct 50 →
      protein ir.2 = protein ir'.2 →
      (ir ∈ drop 42 (df_distinct 50) ↔ ir' ∈ drop 42 (df_distinct 50))
      ∧ (ir ∈ take 42 (df_distinct 50) ↔ ir' ∈ take 42 (df_distinct 50)).
Proof.
  assert (H : train_test_split_proteins (seq 0) (df_distinct 50) true
              = Ok (drop 42 (df_distinct 50), take 42 (df_distinct 50))).
  { vm_compute. reflexivity. }
  split; [reflexivity|]. split; [exact H|].
  exact (split_new_proteins_sides (seq 0) (λ n, reflexivity _) (df_distinct 50) _ _ H).
Defined.

Lemma split_seen_raises_iff_witness :
  (∀ n, seq 0 n ≡ₚ seq 0 n)
  ∧ (Z.of_nat (length (@nil (nat * EncRow))) < 2 ^ 48)%Z
  ∧ (train_test_split_proteins (seq 0) [] false = Raise ValueError
     ↔ @nil (nat * EncRow) = [] ∧ ValueError = ValueError).
Proof.
  assert (H : (Z.of_nat (length (@nil (nat * EncRow))) < 2 ^ 48)%Z)
    by (vm_compute; reflexivity).
  split; [reflexivity|]. split; [exact H|].
  exact (split_seen_raises_iff (seq 0) (λ n, reflexivity _) [] ValueError H).
Defined.

Lemma split_seen_proteins_sides_witness :
  (∀ n, seq 0 n ≡ₚ seq 0 n)
  ∧ NoDup (index df_seen)
  ∧ (Z.of_nat (length df_seen) < 2 ^ 48)%Z
  ∧ train_test_split_proteins (seq 0) df_seen false
    = Ok (take 3 df_seen, drop 3 df_seen)
  ∧ (∀ p, p ∈ proteins_of (take 3 df_seen) ↔ p ∈ proteins_of df_seen)
  ∧ (∀ p, p ∈ proteins_of (drop 3 df_seen) ↔ 2 ≤ length (samples_of p df_seen)).
Proof.
  assert (H : (Z.of_nat (length df_seen) < 2 ^ 48)%Z) by (vm_compute; reflexivity).
  assert (Hs : train_test_split_proteins (seq 0) df_seen false
               = Ok (take 3 df_seen, drop 3 df_seen)) by (vm_compute; reflexivity).
  split; [reflexivity|]. split; [exact NoDup_index_df_seen|].
  split; [exact H|]. split; [exact Hs|].
  exact (split_seen_proteins_sides (seq 0) (λ n, reflexivity _) df_seen _ _
           NoDup_index_df_seen H Hs).
Defined.

End SplitterMoreWitnesses.

(** * More about the network *)

Section NetworkMore.
Import Network.
Local Open Scope R_scope.

(** In training mode a batch of a single row is refused by the first
    batch normalisation. *)
Lemma forward_single_row_batch input_size net x :
  init_shape input_size net → has_shape 1 input_size x →
  forward true net x = Raise ValueError.
Proof.
  intros ((Hi1 & Ho1 & Hl1) & (Hb1 & _) & _) Hx. rewrite <-Hi1 in Hx.
  destruct (Linear_forward_shape _ _ _ Hl1 Hx) as [E1 [S1 S1']].
  unfold forward. rewrite E1. cbn [mbind result_bind].
  unfold BatchNorm1d_forward.
  rewrite decide_True by (by rewrite Hb1, <-Ho1).
  by rewrite decide_True.
Qed.

(** X13. In training mode a batch of a single row is refused by the
    first batch normalisation: [forward] raises [ValueError]. *)
Theorem forward_training_single_row input_size net r :
  init_shape input_size net → length r = input_size →
  forward true net [r] = Raise ValueError.
Proof.
  intros Hnet Hr. apply (forward_single_row_batch input_size); [done|].
  split; [done|]. constructor; [done|]. constructor.
Qed.

(** One hidden layer: a linear layer, batch normalisation, ReLU. *)
Lemma layer_Ok training l bn n x :
  Linear_shape l → num_features bn = out_features l →
  has_shape n (in_features l) x → (training = true → n ≠ 1%nat) →
  ∃ y, Linear_forward l x = Ok (Linear_row l <$> x)
       ∧ BatchNorm1d_forward training bn (Linear_row l <$> x) = Ok y
       ∧ has_shape n (out_features l) (ReLU y).
Proof.
  intros Hl Hbn Hx Ht.
  destruct (Linear_forward_shape _ _ _ Hl Hx) as [E S]. rewrite <-Hbn in S.
  destruct (BatchNorm1d_forward_shape training _ _ _ S Ht) as (y & E' & S').
  exists y. split; [done|]. split; [done|].
  rewrite <-Hbn. by apply ReLU_shape.
Qed.

(** [forward] returns on every batch of rows of the right width, a
    single row in training mode apart, and gives one number per row. *)
Lemma forward_Ok training input_size net n x :
  init_shape input_size net → has_shape n input_size x →
  (training = true → n ≠ 1%nat) →
  ∃ out, forward training net x = Ok out ∧ has_shape n 1 out.
Proof.
  intros ((Hi1 & Ho1 & Hl1) & (Hb1 & _) & (Hi2 & Ho2 & Hl2) & (Hb2 & _)
          & (Hi3 & Ho3 & Hl3) & (Hb3 & _) & (Hi4 & Ho4 & Hl4)) Hx Hn.
  rewrite <-Hi1 in Hx.
  destruct (layer_Ok training (fc1 net) (bn1 net) n x) as (n1 & E1 & E1' & S1);
    [done|congruence|done|done|].
  rewrite Ho1, <-Hi2 in S1.
  destruct (layer_Ok training (fc2 net) (bn2 net) n (ReLU n1))
    as (n2 & E2 & E2' & S2); [done|congruence|done|done|].
  rewrite Ho2, <-Hi3 in S2.
  destruct (layer_Ok training (fc3 net) (bn3 net) n (ReLU n2))
    as (n3 & E3 & E3' & S3); [done|congruence|done|done|].
  rewrite Ho3, <-Hi4 in S3.
  destruct (Linear_forward_shape _ _ _ Hl4 S3) as [E4 S4]. rewrite Ho4 in S4.
  eexists. split; [|exact S4].
  unfold forward. rewrite E1. cbn [mbind result_bind]. rewrite E1'.
  cbn [mbind result_bind]. rewrite E2. cbn [mbind result_bind]. rewrite E2'.
  cbn [mbind result_bind]. rewrite E3. cbn [mbind result_bind]. rewrite E3'.
  cbn [mbind result_bind]. exact E4.
Qed.

End NetworkMore.

Section NetworkMoreWitnesses.
Import Network Samples.
Local Open Scope R_scope.

Lemma forward_training_single_row_witness :
  init_shape 2 (sample_net 2) ∧ length [1; 2] = 2%nat
  ∧ forward true (sample_net 2) [[1; 2]] = Raise ValueError.
Proof.
  split; [apply sample_net_shape|]. split; [reflexivity|].
  apply (forward_training_single_row 2 (sample_net 2) [1; 2]).
  - apply sample_net_shape.
  - reflexivity.
Defined.

End NetworkMoreWitnesses.

(** * Batches, training and evaluation *)

Section Batches.
Import Pipeline.
Context {A : Type}.
Implicit Types l : list A.

Lemma n_batches_spec n bs :
  0 < bs →
  n ≤ n_batches n bs * bs ∧ (n_batches n bs - 1) * bs < n + (if decide (n = 0) then 1 else 0).
Proof.
  intros Hbs. unfold n_batches.
  pose proof (Nat.div_mod_eq (n + bs - 1) bs) as Hdm.
  pose proof (Nat.mod_upper_bound (n + bs - 1) bs) as Hmod.
  set (q := (n + bs - 1) / bs) in *. set (r := (n + bs - 1) mod bs) in *.
  case_decide; nia.
Qed.

Lemma n_batches_0 bs : 0 < bs → n_batches 0 bs = 0.
Proof.
  intros Hbs. unfold n_batches. apply Nat.div_small. lia.
Qed.

Lemma n_batches_pos n bs : 0 < bs → 0 < n → 0 < n_batches n bs.
Proof.
  intros Hbs Hn. pose proof (n_batches_spec n bs Hbs) as [H1 _].
  destruct (n_batches n bs); [simpl in H1; lia|lia].
Qed.

Lemma join_prefix_batches bs l m :
  mjoin ((λ k, take bs (drop (k * bs) l)) <$> seq 0 m) = take (m * bs) l.
Proof.
  induction m as [|m IH]; [done|].
  rewrite seq_S, fmap_app, join_app, IH. simpl. rewrite app_nil_r.
  rewrite take_take_drop. f_equal. lia.
Qed.

(** The batches of a pass, one after the other, are the rows of the pass. *)
Lemma join_batches bs l : 0 < bs → mjoin (batches bs l) = l.
Proof.
  intros Hbs. unfold batches. rewrite join_prefix_batches.
  apply take_ge. by apply n_batches_spec.
Qed.

Lemma length_batches bs l : length (batches bs l) = n_batches (length l) bs.
Proof. unfold batches. by rewrite length_fmap, length_seq. Qed.

Lemma lookup_batches bs l k b :
  batches bs l !! k = Some b →
  k < n_batches (length l) bs ∧ b = take bs (drop (k * bs) l).
Proof.
  unfold batches. rewrite list_lookup_fmap.
  destruct (seq 0 _ !! k) as [k'|] eqn:Hk; [|done].
  apply lookup_seq in Hk as [-> Hk]. simpl. intros [= <-]. done.
Qed.

(** Every batch but the last is full, and the last one holds what is
    left: no batch is empty. *)
Lemma length_batch bs l k b :
  0 < bs → batches bs l !! k = Some b →
  length b = (if decide (S k < n_batches (length l) bs) then bs
              else length l - k * bs)
  ∧ 0 < length b ≤ bs.
Proof.
  intros Hbs [Hk ->]%lookup_batches.
  rewrite length_take, length_drop.
  pose proof (n_batches_spec (length l) bs Hbs) as [H1 H2].
  assert (length l ≠ 0).
  { intros H0. rewrite H0, n_batches_0 in Hk by done. lia. }
  rewrite decide_False in H2 by done.
  case_decide; nia.
Qed.

Lemma n_batches_div_mod n bs :
  0 < bs →
  n_batches n bs = n / bs + (if decide (n mod bs = 0) then 0 else 1).
Proof.
  intros Hbs. unfold n_batches.
  pose proof (Nat.div_mod_eq n bs) as Hdm.
  pose proof (Nat.mod_upper_bound n bs) as Hmod.
  set (q := n / bs) in *. set (r := n mod bs) in *.
  case_decide.
  - symmetry. apply (Nat.div_unique _ _ _ (bs - 1)); lia.
  - symmetry. apply (Nat.div_unique _ _ _ (r - 1)); lia.
Qed.

(** The batches of a non-empty pass: full ones, then a last one with the
    remainder of the division, or a full one when there is none. *)
Lemma batches_snoc bs l :
  0 < bs → l ≠ [] →
  ∃ front b,
    batches bs l = front ++ [b]
    ∧ Forall (λ b', length b' = bs) front
    ∧ length b = (if decide (length l mod bs = 0) then bs else length l mod bs).
Proof.
  intros Hbs Hl.
  assert (Hn : 0 < length l) by (destruct l; [done|simpl; lia]).
  pose proof (n_batches_pos _ _ Hbs Hn) as Hm.
  pose proof (length_batches bs l) as Hlen.
  remember (batches bs l) as BB eqn:HB. symmetry in HB.
  destruct BB as [|b0 B _] using rev_ind; [simpl in Hlen; lia|].
  exists B, b0. split; [done|].
  rewrite length_app in Hlen. simpl in Hlen. split.
  - apply Forall_forall. intros b' [k Hk]%list_elem_of_lookup.
    assert (Hk' : batches bs l !! k = Some b').
    { rewrite HB. by apply lookup_app_l_Some. }
    destruct (length_batch bs l k b' Hbs Hk') as [-> _].
    apply lookup_lt_Some in Hk. rewrite decide_True; lia.
  - assert (Hk' : batches bs l !! length B = Some b0).
    { rewrite HB. by rewrite lookup_app_r, Nat.sub_diag by lia. }
    destruct (length_batch bs l _ b0 Hbs Hk') as [-> _].
    rewrite decide_False by lia.
    pose proof (n_batches_div_mod (length l) bs Hbs) as Hq.
    pose proof (Nat.div_mod_eq (length l) bs) as Hdm.
    pose proof (Nat.mod_upper_bound (length l) bs) as Hmod.
    case_decide; nia.
Qed.

(** With a batch size of two or more, a batch of a single row occurs
    only when the number of rows leaves the remainder 1. *)
Lemma batches_no_single bs l :
  2 ≤ bs → length l mod bs ≠ 1 → Forall (λ b, length b ≠ 1) (batches bs l).
Proof.
  intros Hbs Hmod. destruct (decide (l = [])) as [->|Hne].
  - unfold batches. simpl. by rewrite n_batches_0 by lia.
  - destruct (batches_snoc bs l) as (front & b & -> & Hfront & Hlast); [lia|done|].
    apply Forall_app. split.
    + eapply Forall_impl; [exact Hfront|]. simpl. lia.
    + apply Forall_singleton. rewrite Hlast. case_decide; lia.
Qed.

End Batches.

Section FoldM.
Import Pipeline.
Context {A B : Type} (f : A → B → result A).

Lemma foldM_app a l1 l2 :
  foldM f a (l1 ++ l2) = a' ← foldM f a l1; foldM f a' l2.
Proof.
  revert a. induction l1 as [|b l1 IH]; intros a; [done|].
  simpl. destruct (f a b) as [a'|e]; [|done]. simpl. apply IH.
Qed.

(** A loop whose every turn returns and keeps an invariant returns, and
    the invariant holds at its end. *)
Lemma foldM_invariant (Inv : A → Prop) (P : B → Prop) a l :
  (∀ a b, Inv a → P b → ∃ a', f a b = Ok a' ∧ Inv a') →
  Inv a → Forall P l →
  ∃ a', foldM f a l = Ok a' ∧ Inv a'.
Proof.
  intros Hf Ha Hl. revert a Ha.
  induction Hl as [|b l Hb _ IH]; intros a Ha.
  - by exists a.
  - destruct (Hf a b Ha Hb) as (a' & Hfa & Ha'). simpl. rewrite Hfa. simpl.
    by apply IH.
Qed.
End FoldM.

Section Loader.
Import Network Pipeline.

Lemma iter_loader_Ok perm dl :
  perm ≡ₚ seq 0 (length (dataset dl)) →
  iter_loader perm dl
  = Ok ((λ b : list (row * R), (b.*1, b.*2))
        <$> batches (batch_size dl) (omap (dataset dl !!.) perm))
  ∧ omap (dataset dl !!.) perm ≡ₚ dataset dl.
Proof.
  intros Hperm. unfold iter_loader.
  rewrite take_rows_Ok by (by apply Forall_lt_Permutation_seq).
  split; [done|]. by apply omap_lookup_Permutation.
Qed.

Lemma squeeze_vector (m : batch) :
  Forall (λ r, length r = 1) m → length m ≠ 1 → squeeze m = Vector (mjoin m).
Proof.
  intros Hm Hl. unfold squeeze.
  destruct m as [|r [|r' m']]; [|done|]; by rewrite decide_True.
Qed.

Lemma squeeze_scalar (m : batch) :
  Forall (λ r, length r = 1) m → length m = 1 → ∃ a, squeeze m = Scalar a.
Proof.
  intros Hm Hl. destruct m as [|r m]; [done|]. destruct m; [|done].
  apply Forall_inv in Hm. simpl in Hm.
  destruct r as [|a r]; [discriminate Hm|]. destruct r; [|discriminate Hm].
  by exists a.
Qed.

(** The batches of a pass over a loader whose rows have the width the
    network expects. *)
Lemma batches_shape input_size dl (rows : list (row * R)) :
  rows_width input_size dl → rows ≡ₚ dataset dl → 0 < batch_size dl →
  Forall (λ b : list (row * R), has_shape (length b) input_size b.*1
                                ∧ 0 < length b ≤ batch_size dl)
    (batches (batch_size dl) rows).
Proof.
  intros Hw Hperm Hbs. apply Forall_forall. intros b [k Hk]%list_elem_of_lookup.
  destruct (length_batch _ _ _ _ Hbs Hk) as [_ Hlen]. split; [|done].
  apply lookup_batches in Hk as [_ ->]. split; [by rewrite length_fmap|].
  apply Forall_fmap. unfold rows_width in Hw. rewrite <-Hperm in Hw.
  by apply Forall_take, Forall_drop.
Qed.

End Loader.

Section TrainingProofs.
Import Network Pipeline.

Context {Opt : Type}.
Variable criterion : tensor → list R → R.
Variable step : Opt → DrugProteinNN → batch → list R → Opt * DrugProteinNN.
Variable shuffle : nat → nat → list nat.
Variable input_size : nat.

Hypothesis shuffle_perm : ∀ epoch n, shuffle epoch n ≡ₚ seq 0 n.
(** An iteration changes the numbers in the layers, not their sizes. *)
Hypothesis step_shape : ∀ opt net x y,
  init_shape input_size net → init_shape input_size (step opt net x y).2.

Lemma train_batch_Ok (st : Opt * DrugProteinNN * R) (b : list (row * R)) :
  init_shape input_size st.1.2 →
  has_shape (length b) input_size b.*1 → length b ≠ 1 →
  ∃ st', train_batch criterion step st (b.*1, b.*2) = Ok st'
         ∧ init_shape input_size st'.1.2.
Proof using step_shape.
  intros Hnet Hb Hl. unfold train_batch. cbn [fst snd].
  destruct (forward_Ok true input_size st.1.2 (length b) b.*1 Hnet Hb)
    as (out & Hf & _); [done|].
  rewrite Hf. cbn [mbind result_bind]. eexists. split; [done|].
  cbn [fst snd]. by apply step_shape.
Qed.

Lemma train_batch_single (st : Opt * DrugProteinNN * R) (b : list (row * R)) :
  init_shape input_size st.1.2 →
  has_shape (length b) input_size b.*1 → length b = 1 →
  train_batch criterion step st (b.*1, b.*2) = Raise ValueError.
Proof.
  intros Hnet Hb Hl. unfold train_batch. cbn [fst snd].
  rewrite Hl in Hb. by rewrite (forward_single_row_batch input_size).
Qed.

(** What one epoch does, by the size of the last batch. *)
Lemma train_epoch_cases (dl : DataLoader) (st : Opt * DrugProteinNN) epoch :
  init_shape input_size st.2 → rows_width input_size dl →
  2 ≤ batch_size dl → dataset dl ≠ [] →
  if decide (length (dataset dl) mod batch_size dl = 1)
  then train_epoch criterion step shuffle dl st epoch = Raise ValueError
  else ∃ st' loss, train_epoch criterion step shuffle dl st epoch = Ok (st', loss)
                   ∧ init_shape input_size st'.2.
Proof using shuffle_perm step_shape.
  intros Hnet Hw Hbs Hne. unfold train_epoch.
  destruct (iter_loader_Ok (shuffle epoch (length (dataset dl))) dl) as [-> Hperm];
    [done|].
  cbn [mbind result_bind].
  set (rows := omap (dataset dl !!.) (shuffle epoch (length (dataset dl)))) in *.
  assert (Hrows : rows ≠ []).
  { intros Hnil. rewrite Hnil in Hperm. by apply Permutation_nil_l in Hperm. }
  destruct (batches_snoc (batch_size dl) rows) as (front & b & HB & Hfront & Hlast);
    [lia|done|].
  pose proof (batches_shape input_size dl rows Hw Hperm) as Hshape.
  rewrite HB in Hshape |- *. apply Forall_app in Hshape as [Hsf Hsb]; [|lia].
  apply Forall_inv in Hsb as [Hsb _].
  rewrite fmap_app, foldM_app.
  destruct (foldM_invariant (train_batch criterion step)
              (λ st, init_shape input_size st.1.2)
              (λ xb, ∃ b' : list (row * R), xb = (b'.*1, b'.*2)
                     ∧ has_shape (length b') input_size b'.*1 ∧ length b' ≠ 1)
              (st, 0%R)
              ((λ b : list (row * R), (b.*1, b.*2)) <$> front))
    as (st1 & -> & Hst1).
  { intros a xb Ha (b' & -> & Hb' & Hl'). by apply train_batch_Ok. }
  { done. }
  { apply Forall_fmap, Forall_forall. intros b' Hb'. exists b'.
    split; [done|]. rewrite Forall_forall in Hsf, Hfront.
    split; [by apply Hsf|]. rewrite (Hfront b' Hb'). lia. }
  cbn [mbind result_bind fmap list_fmap foldM].
  rewrite (Permutation_length Hperm) in Hlast.
  destruct (decide (length (dataset dl) mod batch_size dl = 1)) as [Hmod|Hmod].
  - rewrite decide_False in Hlast by lia. rewrite Hmod in Hlast.
    by rewrite train_batch_single.
  - destruct (train_batch_Ok st1 b Hst1 Hsb) as (st2 & -> & Hst2).
    { destruct (decide (length (dataset dl) mod batch_size dl = 0)); lia. }
    cbn [mbind result_bind].
    rewrite decide_False.
    + eexists _, _. split; [done|]. done.
    + pose proof (n_batches_pos (length (dataset dl)) (batch_size dl)).
      destruct (dataset dl); [done|]. simpl in *. lia.
Qed.

(** X17. With a training set whose size leaves the remainder 1 on
    division by the batch size, the last batch of the first epoch has a
    single row and [train_model] raises [ValueError]. *)
Theorem train_model_single_row_batch (dl : DataLoader) opt net epochs :
  init_shape input_size net → rows_width input_size dl →
  2 ≤ batch_size dl →
  length (dataset dl) mod batch_size dl = 1 → 0 < epochs →
  train_model criterion step shuffle dl (opt, net) epochs = Raise ValueError.
Proof using shuffle_perm step_shape.
  intros Hnet Hw Hbs Hmod Hep. unfold train_model.
  destruct epochs as [|epochs]; [lia|]. cbn [seq foldM fst snd].
  pose proof (train_epoch_cases dl (opt, net) 0 Hnet Hw Hbs) as Hc.
  rewrite decide_True in Hc by done. rewrite Hc; [done|].
  intros Hnil. rewrite Hnil in Hmod. simpl in Hmod.
  rewrite Nat.Div0.mod_0_l in Hmod. lia.
Qed.

(** The total an epoch accumulates is the sum of the losses of its
    iterations. *)
Lemma train_batches_inv (bs : list (batch * list R)) st total st' total' :
  foldM (train_batch criterion step) (st, total) bs = Ok (st', total') →
  ∃ ls, pass_losses criterion step st bs ls st'
        ∧ length ls = length bs
        ∧ total' = (total + Rsum ls)%R.
Proof.
  revert st total. induction bs as [|b bs IH]; intros st total Hf.
  - simpl in Hf. injection Hf as <- <-. exists []. split; [constructor|].
    split; [done|]. unfold Rsum. simpl. Lra.lra.
  - cbn [foldM] in Hf.
    destruct (train_batch criterion step (st, total) b) as [[st1 t1]|] eqn:Hb;
      cbn [mbind result_bind] in Hf; [|done].
    unfold train_batch in Hb. cbn [fst snd] in Hb.
    destruct (forward true st.2 b.1) as [out|] eqn:Hout;
      cbn [mbind result_bind] in Hb; [|done].
    injection Hb as <- <-.
    apply IH in Hf as (ls & Hp & Hl & ->).
    exists (criterion (squeeze out) b.2 :: ls). split.
    + by apply pass_cons.
    + split; [simpl; by rewrite Hl|]. unfold Rsum. simpl. Lra.lra.
Qed.

(** The loss an epoch reports is the mean of the losses of its
    iterations, one for each batch of the pass. *)
Lemma train_epoch_inv (dl : DataLoader) (st : Opt * DrugProteinNN) epoch st' loss :
  train_epoch criterion step shuffle dl st epoch = Ok (st', loss) →
  ∃ bs ls,
    iter_loader (shuffle epoch (length (dataset dl))) dl = Ok bs
    ∧ pass_losses criterion step st bs ls st'
    ∧ length ls = n_batches (length (dataset dl)) (batch_size dl)
    ∧ 0 < length ls
    ∧ loss = mean ls.
Proof using shuffle_perm.
  unfold train_epoch. intros He.
  destruct (iter_loader_Ok (shuffle epoch (length (dataset dl))) dl) as [E Hperm];
    [done|].
  rewrite E in He |- *. cbn [mbind result_bind] in He.
  set (rows := omap (dataset dl !!.) (shuffle epoch (length (dataset dl)))) in *.
  destruct (foldM _ _ _) as [[st2 total]|] eqn:Hf; [|done].
  cbn [mbind result_bind fst snd] in He.
  destruct (decide (n_batches (length (dataset dl)) (batch_size dl) = 0%nat))
    as [|Hnz]; [done|].
  injection He as <- <-.
  apply train_batches_inv in Hf as (ls & Hp & Hl & ->).
  rewrite length_fmap, length_batches, (Permutation_length Hperm) in Hl.
  eexists _, ls. split; [done|]. split; [done|]. split; [done|].
  split; [lia|]. unfold mean. rewrite Hl. f_equal. Lra.lra.
Qed.

(** X18. With a non-empty training set whose size does not leave the
    remainder 1, [train_model] runs all its epochs: it returns a model
    with the same layer sizes and has printed one loss per epoch, the
    mean over the batches of that epoch's pass of the losses of its
    iterations. [sts] lists the optimizer and the model before the first
    epoch and after each one. The sum and the quotient are those of the
    real numbers: the rounding of the floating-point operations is not
    modelled. *)
Theorem train_model_returns (dl : DataLoader) opt net epochs :
  init_shape input_size net → rows_width input_size dl →
  2 ≤ batch_size dl → dataset dl ≠ [] →
  length (dataset dl) mod batch_size dl ≠ 1 →
  ∃ opt' net' losses (sts : list (Opt * DrugProteinNN)),
    train_model criterion step shuffle dl (opt, net) epochs
    = Ok (opt', net', losses)
    ∧ init_shape input_size net' ∧ length losses = epochs
    ∧ length sts = S epochs
    ∧ sts !! 0 = Some (opt, net) ∧ sts !! epochs = Some (opt', net')
    ∧ ∀ k st st', sts !! k = Some st → sts !! S k = Some st' →
        ∃ bs ls,
          iter_loader (shuffle k (length (dataset dl))) dl = Ok bs
          ∧ pass_losses criterion step st bs ls st'
          ∧ length ls = n_batches (length (dataset dl)) (batch_size dl)
          ∧ 0 < length ls
          ∧ losses !! k = Some (mean ls).
Proof using shuffle_perm step_shape.
  intros Hnet Hw Hbs Hne Hmod. unfold train_model.
  assert (Hgen : ∀ k0 st losses0, init_shape input_size st.2 →
    ∃ st' new (sts : list (Opt * DrugProteinNN)),
      foldM (λ acc epoch,
               r ← train_epoch criterion step shuffle dl acc.1 epoch;
               Ok (r.1, acc.2 ++ [r.2]))
            (st, losses0) (seq k0 epochs) = Ok (st', losses0 ++ new)
      ∧ init_shape input_size st'.2
      ∧ length new = epochs ∧ length sts = S epochs
      ∧ sts !! 0 = Some st ∧ sts !! epochs = Some st'
      ∧ ∀ j s s', sts !! j = Some s → sts !! S j = Some s' →
          ∃ bs ls,
            iter_loader (shuffle (k0 + j) (length (dataset dl))) dl = Ok bs
            ∧ pass_losses criterion step s bs ls s'
            ∧ length ls = n_batches (length (dataset dl)) (batch_size dl)
            ∧ 0 < length ls
            ∧ new !! j = Some (mean ls)).
  { induction epochs as [|epochs IH]; intros k0 st losses0 Hst.
    - exists st, [], [st]. simpl. rewrite app_nil_r.
      do 6 (split; [done|]). intros j s s' _ Hs'. by destruct j.
    - cbn [seq foldM fst snd].
      pose proof (train_epoch_cases dl st k0 Hst Hw Hbs Hne) as Hc.
      rewrite decide_False in Hc by done.
      destruct Hc as (st1 & loss & He & Hst1). rewrite He.
      cbn [mbind result_bind fst snd].
      destruct (IH (S k0) st1 (losses0 ++ [loss]) Hst1)
        as (st' & new & sts & -> & H1 & H2 & H3 & H4 & H5 & H6).
      exists st', (loss :: new), (st :: sts).
      split; [by rewrite <-(assoc_L (++))|]. split; [done|].
      split; [simpl; by rewrite H2|]. split; [simpl; by rewrite H3|].
      split; [done|]. split; [done|].
      intros [|j] s s' Hs Hs'.
      + simpl in Hs. injection Hs as <-. simpl in Hs'.
        rewrite H4 in Hs'. injection Hs' as <-.
        apply train_epoch_inv in He as (bs & ls & E1 & E2 & E3 & E4 & ->).
        exists bs, ls. rewrite Nat.add_0_r. done.
      + simpl in Hs, Hs'.
        destruct (H6 j s s' Hs Hs') as (bs & ls & E1 & E2 & E3 & E4 & E5).
        exists bs, ls. rewrite Nat.add_succ_r. done. }
  destruct (Hgen 0 (opt, net) [] Hnet)
    as ([opt' net'] & losses & sts & -> & H1 & H2 & H3 & H4 & H5 & H6).
  exists opt', net', losses, sts. done.
Qed.

(** X19. Given a loader with no rows, [train_model] raises
    [ZeroDivisionError] at the end of the first epoch, where the total
    loss is divided by the number of batches. *)
Theorem train_model_empty (dl : DataLoader) (st : Opt * DrugProteinNN) epochs :
  dataset dl = [] → 0 < batch_size dl → 0 < epochs →
  train_model criterion step shuffle dl st epochs = Raise ZeroDivisionError.
Proof using shuffle_perm.
  intros Hnil Hbs Hep. unfold train_model.
  destruct epochs as [|epochs]; [lia|]. cbn [seq foldM fst snd].
  unfold train_epoch.
  destruct (iter_loader_Ok (shuffle 0 (length (dataset dl))) dl) as [-> Hperm];
    [done|].
  rewrite Hnil in Hperm |- *. apply Permutation_nil_r in Hperm. rewrite Hperm.
  cbn [mbind result_bind length]. unfold batches. cbn [length].
  rewrite n_batches_0 by done. cbn [seq fmap list_fmap foldM mbind result_bind].
  by rewrite decide_True.
Qed.

End TrainingProofs.

Section EvaluationProofs.
Import Network Pipeline.

Context {M : Type}.
Variable metrics : list R → list R → result M.
Variable input_size : nat.

(** What the loop of the evaluator appends to [y_pred] for a batch [b]:
    the squeezed output of the model on the features of [b], a vector
    with one prediction for each row of [b]. *)
Let predicted net (b : list (row * R)) (out : list R) : Prop :=
  ∃ o, forward false net b.*1 = Ok o ∧ squeeze o = Vector out
       ∧ length out = length b.

Lemma collect_batch_Ok net (b : list (row * R)) :
  init_shape input_size net →
  has_shape (length b) input_size b.*1 → length b ≠ 1 →
  ∃ out, predicted net b out
    ∧ ∀ acc, collect_batch net acc (b.*1, b.*2)
             = Ok (acc.1 ++ b.*2, acc.2 ++ out).
Proof.
  intros Hnet Hb Hl.
  destruct (forward_Ok false input_size net (length b) b.*1 Hnet Hb)
    as (o & Hf & Hn & Ho); [done|].
  exists (mjoin o).
  assert (Hsq : squeeze o = Vector (mjoin o)).
  { apply squeeze_vector; [done|]. by rewrite Hn. }
  split.
  - exists o. split; [done|]. split; [done|].
    rewrite <-Hn. clear -Ho. induction Ho as [|r o Hr _ IH]; [done|].
    change (mjoin (r :: o)) with (r ++ mjoin o).
    rewrite length_app, Hr, IH. done.
  - intros acc. unfold collect_batch. cbn [fst snd]. rewrite Hf.
    cbn [mbind result_bind]. by rewrite Hsq.
Qed.

Lemma collect_batch_single net (acc : list R * list R) (b : list (row * R)) :
  init_shape input_size net →
  has_shape (length b) input_size b.*1 → length b = 1 →
  collect_batch net acc (b.*1, b.*2) = Raise TypeError.
Proof.
  intros Hnet Hb Hl. unfold collect_batch. cbn [fst snd].
  destruct (forward_Ok false input_size net (length b) b.*1 Hnet Hb)
    as (o & -> & Hn & Ho); [done|].
  cbn [mbind result_bind].
  destruct (squeeze_scalar o) as [a ->]; [done| |done].
  by rewrite Hn.
Qed.

Lemma collect_batches_Ok net (B : list (list (row * R))) :
  init_shape input_size net →
  Forall (λ b : list (row * R),
            has_shape (length b) input_size b.*1 ∧ length b ≠ 1) B →
  ∃ outs, Forall2 (predicted net) B outs
    ∧ ∀ acc, foldM (collect_batch net) acc
               ((λ b : list (row * R), (b.*1, b.*2)) <$> B)
             = Ok (acc.1 ++ (mjoin B).*2, acc.2 ++ mjoin outs).
Proof.
  intros Hnet HB. induction HB as [|b B [Hb Hl] _ (outs & IH1 & IH2)].
  - exists []. split; [constructor|]. intros acc. simpl.
    by rewrite !app_nil_r, <-surjective_pairing.
  - destruct (collect_batch_Ok net b Hnet Hb Hl) as (out & Hp & Hc).
    exists (out :: outs). split; [by constructor|]. intros acc.
    cbn [fmap list_fmap foldM]. rewrite Hc.
    cbn [mbind result_bind]. rewrite IH2. cbn [fst snd]. f_equal.
    change (mjoin (b :: B)) with (b ++ mjoin B).
    change (mjoin (out :: outs)) with (out ++ mjoin outs).
    rewrite !fmap_app, <-!(assoc_L (++)). done.
Qed.

(** X20. With a test set whose size leaves the remainder 1 on division
    by the batch size, the last batch has a single row, its squeezed
    output is a 0-dimensional array, and the evaluator raises
    [TypeError] before any metric is computed. *)
Theorem evaluate_single_row_batch net perm (dl : DataLoader) :
  init_shape input_size net → rows_width input_size dl →
  perm ≡ₚ seq 0 (length (dataset dl)) →
  2 ≤ batch_size dl → length (dataset dl) mod batch_size dl = 1 →
  evaluate_model_with_metrics metrics net perm dl = Raise TypeError.
Proof.
  intros Hnet Hw Hp Hbs Hmod. unfold evaluate_model_with_metrics.
  destruct (iter_loader_Ok perm dl Hp) as [-> Hperm].
  cbn [mbind result_bind].
  set (rows := omap (dataset dl !!.) perm) in *.
  assert (Hrows : rows ≠ []).
  { intros Hnil. rewrite Hnil in Hperm. apply Permutation_nil_l in Hperm.
    rewrite <-Hperm in Hmod. simpl in Hmod.
    rewrite Nat.Div0.mod_0_l in Hmod. lia. }
  destruct (batches_snoc (batch_size dl) rows) as (front & b & HB & Hfront & Hlast);
    [lia|done|].
  pose proof (batches_shape input_size dl rows Hw Hperm) as Hshape.
  rewrite HB in Hshape |- *. apply Forall_app in Hshape as [Hsf Hsb]; [|lia].
  apply Forall_inv in Hsb as [Hsb _].
  destruct (collect_batches_Ok net front Hnet) as (outs & _ & Hc).
  { apply Forall_forall. intros b' Hb'. rewrite Forall_forall in Hsf, Hfront.
    split; [by apply Hsf|]. rewrite (Hfront b' Hb'). lia. }
  rewrite fmap_app, foldM_app, Hc.
  cbn [mbind result_bind fmap list_fmap foldM].
  rewrite (Permutation_length Hperm), Hmod, decide_False in Hlast by lia.
  by rewrite collect_batch_single.
Qed.

(** X21. With a test set whose size does not leave the remainder 1, the
    metrics are computed on [y_true], the targets of the rows in the
    order of the pass, and on [y_pred], the outputs of the model for the
    batches of the pass one after the other. Each batch gives as many
    predictions as it has targets, so the two lists are equally long and
    the prediction at a position was computed, in its batch, for the row
    whose target is at that position. *)
Theorem evaluate_aligned net perm (dl : DataLoader) :
  init_shape input_size net → rows_width input_size dl →
  perm ≡ₚ seq 0 (length (dataset dl)) →
  2 ≤ batch_size dl → length (dataset dl) mod batch_size dl ≠ 1 →
  let rows := omap (dataset dl !!.) perm in
  let B := batches (batch_size dl) rows in
  ∃ outs : list (list R),
    evaluate_model_with_metrics metrics net perm dl
    = metrics (mjoin ((λ b, b.*2) <$> B)) (mjoin outs)
    ∧ Forall2 (λ b out, ∃ o, forward false net b.*1 = Ok o
                             ∧ squeeze o = Vector out
                             ∧ length out = length b) B outs
    ∧ mjoin B = rows ∧ rows ≡ₚ dataset dl
    ∧ length (mjoin outs) = length (mjoin ((λ b, b.*2) <$> B)).
Proof.
  intros Hnet Hw Hp Hbs Hmod rows B. unfold evaluate_model_with_metrics.
  destruct (iter_loader_Ok perm dl Hp) as [-> Hperm]. fold rows in Hperm |- *.
  fold B.
  assert (HB : Forall (λ b : list (row * R),
                has_shape (length b) input_size b.*1 ∧ length b ≠ 1) B).
  { assert (Hbs0 : 0 < batch_size dl) by lia.
    pose proof (batches_shape input_size dl rows Hw Hperm Hbs0) as Hshape.
    pose proof (batches_no_single (batch_size dl) rows Hbs) as Hns.
    rewrite (Permutation_length Hperm) in Hns. specialize (Hns Hmod).
    rewrite Forall_forall in Hshape, Hns. apply Forall_forall.
    intros b Hb. destruct (Hshape b Hb) as [Hsb _].
    split; [exact Hsb|by apply Hns]. }
  destruct (collect_batches_Ok net B Hnet HB) as (outs & Houts & Hc).
  assert (Hjoin : ∀ C : list (list (row * R)),
            (mjoin C).*2 = mjoin ((λ b, b.*2) <$> C)).
  { induction C as [|c C IH]; [done|].
    change (mjoin (c :: C)) with (c ++ mjoin C).
    rewrite fmap_cons, fmap_app, IH. done. }
  exists outs. split; [|split; [exact Houts|split; [|split; [done|]]]].
  - cbn [mbind result_bind]. rewrite Hc. cbn [mbind result_bind fst snd app].
    by rewrite Hjoin.
  - unfold B. apply join_batches. lia.
  - clear -Houts. induction Houts as [|b out B outs (o & _ & _ & Hl) _ IH]; [done|].
    rewrite fmap_cons.
    change (mjoin (out :: outs)) with (out ++ mjoin outs).
    change (mjoin (?x :: ?l)) with (x ++ mjoin l).
    rewrite !length_app, IH, Hl, length_fmap. done.
Qed.

End EvaluationProofs.

(** * From the encoded frame to the two loaders *)

Section Compose.
Import Encoder Splitter Network Pipeline.

Lemma uniform_intro (l : list nat) :
  (∀ x y, x ∈ l → y ∈ l → x = y) → uniform l.
Proof.
  intros H. unfold uniform. apply Forall_forall. intros x Hx.
  apply Forall_forall. intros y Hy. by apply H.
Qed.

Lemma length_features er :
  length (features er)
  = (length (Encoded_SMILES er) + length (Encoded_Sequence er))%nat.
Proof. unfold features. by rewrite length_fmap, length_app. Qed.

(** A non-empty frame whose rows come from one encoded frame gives a
    loader, and all its feature rows have the width of that frame. *)
Lemma prepare_dataloader_Ok (df' part : DataFrame EncRow) Wq Ws bs :
  (∀ ir, ir ∈ df' → length (Encoded_Sequence ir.2) = Wq
                    ∧ length (Encoded_SMILES ir.2) = Ws) →
  (∀ ir, ir ∈ part → ir ∈ df') → part ≠ [] → 0 < bs →
  ∃ dl, prepare_dataloader part bs = Ok dl
        ∧ rows_width (Ws + Wq) dl
        ∧ batch_size dl = bs
        ∧ length (dataset dl) = length part.
Proof.
  intros Hw Hsub Hne Hbs. unfold prepare_dataloader.
  rewrite decide_True.
  - destruct part as [|ir0 part0] eqn:Hpart; [done|]. rewrite <-Hpart in *.
    rewrite decide_False by lia.
    eexists. split; [done|]. cbn [dataset batch_size].
    split; [|split; [done|by rewrite length_fmap]].
    unfold rows_width. cbn [dataset]. apply Forall_fmap, Forall_forall.
    intros ir Hir. change (length (features ir.2) = (Ws + Wq)%nat).
    rewrite length_features.
    destruct (Hw ir (Hsub ir Hir)) as [-> ->]. done.
  - split; apply uniform_intro; unfold widths;
      intros x y (ir & -> & Hir)%list_elem_of_fmap (ir' & -> & Hir')%list_elem_of_fmap;
      destruct (Hw ir (Hsub ir Hir)) as [E1 E2];
      destruct (Hw ir' (Hsub ir' Hir')) as [E1' E2']; congruence.
Qed.

Variable set_iter : gset ascii → list ascii.
Variable permutation : nat → list nat.
Hypothesis permutation_perm : ∀ n, permutation n ≡ₚ seq 0 n.

(** X15. Encoding a frame, splitting it under either policy and making
    a loader with a positive batch size of each non-empty side gives two
    loaders whose feature rows all have one width: the length of the
    longest SMILES string of the frame plus the length of its longest
    sequence. A network sized for a training row so accepts every test
    row. No row is lost on the way. *)
Theorem pipeline_loaders (df : DataFrame Row) df' new_proteins train test bs :
  NoDup (index df) →
  encode_sequences set_iter df = Ok df' →
  train_test_split_proteins permutation df' new_proteins = Ok (train, test) →
  train ≠ [] → test ≠ [] → 0 < bs →
  ∃ L_seq L_smi train_loader test_loader,
    is_max (len <$> column Sequence df) L_seq
    ∧ is_max (len <$> column SMILES df) L_smi
    ∧ prepare_dataloader train bs = Ok train_loader
    ∧ prepare_dataloader test bs = Ok test_loader
    ∧ rows_width (L_smi + L_seq) train_loader
    ∧ rows_width (L_smi + L_seq) test_loader
    ∧ batch_size train_loader = bs ∧ batch_size test_loader = bs
    ∧ (length (dataset train_loader) + length (dataset test_loader))%nat
      = length df.
Proof using permutation_perm.
  intros Hnd Henc Hs Htr Hte Hbs.
  pose proof (encode_sequences_index _ _ _ Henc) as Hidx.
  assert (Hnd' : NoDup (index df')) by (by rewrite Hidx).
  pose proof (split_rows_perm permutation permutation_perm df' _ _ _ Hnd' Hs)
    as Hperm.
  assert (Hdf' : df' ≠ []).
  { intros ->. apply Permutation_nil_r in Hperm.
    by apply app_eq_nil in Hperm as [-> _]. }
  destruct df' as [|[i0 er0] df0] eqn:Hd; [done|]. rewrite <-Hd in *.
  assert (H0 : (i0, er0) ∈ df') by (rewrite Hd; by left).
  destruct (encode_sequences_no_overflow _ _ _ Henc i0 er0 H0)
    as (Lq & Ls & Hq & Hsm & E1 & E2).
  assert (Hw : ∀ ir, ir ∈ df' →
    length (Encoded_Sequence ir.2) = Lq ∧ length (Encoded_SMILES ir.2) = Ls).
  { intros [i er] Hir. rewrite <-E1, <-E2.
    by apply (encode_sequences_lengths set_iter df df' i er i0 er0). }
  destruct (prepare_dataloader_Ok df' train _ _ bs Hw) as (dl1 & D1 & W1 & B1 & L1);
    [|done|done|].
  { intros ir Hir. rewrite <-Hperm. apply elem_of_app. by left. }
  destruct (prepare_dataloader_Ok df' test _ _ bs Hw) as (dl2 & D2 & W2 & B2 & L2);
    [|done|done|].
  { intros ir Hir. rewrite <-Hperm. apply elem_of_app. by right. }
  exists Lq, Ls, dl1, dl2. do 8 (split; [done|]).
  rewrite L1, L2, <-length_app, Hperm.
  rewrite <-(length_fmap fst df'). fold (index df'). rewrite Hidx.
  unfold index. by rewrite length_fmap.
Qed.

(** A batch size of 0 and a frame with no row are refused. *)
Lemma prepare_dataloader_raises (df : DataFrame EncRow) bs :
  df = [] ∨ bs = 0 → prepare_dataloader df bs = Raise ValueError.
Proof.
  intros H. unfold prepare_dataloader.
  destruct (decide _); [|done]. destruct df as [|ir df]; [done|].
  destruct H as [? | ->]; [done|]. by rewrite decide_True.
Qed.

(** X16. A pass over a loader yields [ceil(n / batch_size)] batches,
    none of them empty or larger than the batch size and all but the
    last one full, and the batches hold, together, each row of the data
    set once. *)
Theorem iter_loader_pass perm (dl : DataLoader) :
  perm ≡ₚ seq 0 (length (dataset dl)) → 0 < batch_size dl →
  ∃ B : list (list (row * R)),
    iter_loader perm dl = Ok ((λ b : list (row * R), (b.*1, b.*2)) <$> B)
    ∧ mjoin B ≡ₚ dataset dl
    ∧ length B = n_batches (length (dataset dl)) (batch_size dl)
    ∧ Forall (λ b, 0 < length b ≤ batch_size dl) B
    ∧ ∀ k b, B !! k = Some b → S k < length B → length b = batch_size dl.
Proof.
  intros Hperm Hbs.
  destruct (iter_loader_Ok perm dl Hperm) as [E Hrows].
  set (rows := omap (dataset dl !!.) perm) in *.
  exists (batches (batch_size dl) rows). split; [done|].
  split; [by rewrite join_batches|].
  split; [by rewrite length_batches, (Permutation_length Hrows)|].
  split.
  - apply Forall_forall. intros b [k Hk]%list_elem_of_lookup.
    by destruct (length_batch _ _ _ _ Hbs Hk) as [_ ?].
  - intros k b Hk Hlt. destruct (length_batch _ _ _ _ Hbs Hk) as [-> _].
    rewrite length_batches in Hlt. by rewrite decide_True.
Qed.

End Compose.

Section PipelineWitnesses.
Import Encoder Splitter Network Pipeline Samples LoaderSamples.

Lemma keep_step_shape : ∀ (opt : ()) net x y,
  init_shape 2 net → init_shape 2 (keep_step opt net x y).2.
Proof. intros opt net x y H. exact H. Defined.

Lemma loader3_width : rows_width 2 loader3.
Proof. repeat constructor. Defined.

Lemma loader4_width : rows_width 2 loader4.
Proof. repeat constructor. Defined.

Lemma train_model_single_row_batch_witness :
  (∀ epoch n, no_shuffle epoch n ≡ₚ seq 0 n)
  ∧ (∀ (opt : ()) net x y,
       init_shape 2 net → init_shape 2 (keep_step opt net x y).2)
  ∧ init_shape 2 (sample_net 2) ∧ rows_width 2 loader3
  ∧ 2 ≤ batch_size loader3
  ∧ length (dataset loader3) mod batch_size loader3 = 1 ∧ 0 < 20
  ∧ train_model zero_loss keep_step no_shuffle loader3 ((), sample_net 2) 20
    = Raise ValueError.
Proof.
  split; [reflexivity|]. split; [exact keep_step_shape|].
  split; [apply sample_net_shape|]. split; [exact loader3_width|].
  split; [simpl; lia|]. split; [reflexivity|]. split; [lia|].
  apply (train_model_single_row_batch zero_loss keep_step no_shuffle 2).
  - reflexivity.
  - exact keep_step_shape.
  - apply sample_net_shape.
  - exact loader3_width.
  - simpl; lia.
  - reflexivity.
  - lia.
Defined.

Lemma train_model_returns_witness :
  (∀ epoch n, no_shuffle epoch n ≡ₚ seq 0 n)
  ∧ (∀ (opt : ()) net x y,
       init_shape 2 net → init_shape 2 (keep_step opt net x y).2)
  ∧ init_shape 2 (sample_net 2) ∧ rows_width 2 loader4
  ∧ 2 ≤ batch_size loader4 ∧ dataset loader4 ≠ []
  ∧ length (dataset loader4) mod batch_size loader4 ≠ 1
  ∧ ∃ opt' net' losses (sts : list (() * DrugProteinNN)),
      train_model zero_loss keep_step no_shuffle loader4 ((), sample_net 2) 20
      = Ok (opt', net', losses)
      ∧ init_shape 2 net' ∧ length losses = 20
      ∧ length sts = 21
      ∧ sts !! 0 = Some ((), sample_net 2) ∧ sts !! 20 = Some (opt', net')
      ∧ ∀ k st st', sts !! k = Some st → sts !! S k = Some st' →
          ∃ bs ls,
            iter_loader (no_shuffle k (length (dataset loader4))) loader4 = Ok bs
            ∧ pass_losses zero_loss keep_step st bs ls st'
            ∧ length ls
              = n_batches (length (dataset loader4)) (batch_size loader4)
            ∧ 0 < length ls
            ∧ losses !! k = Some (mean ls).
Proof.
  split; [reflexivity|]. split; [exact keep_step_shape|].
  split; [apply sample_net_shape|]. split; [exact loader4_width|].
  split; [simpl; lia|]. split; [discriminate|]. split; [simpl; lia|].
  apply (train_model_returns zero_loss keep_step no_shuffle 2).
  - reflexivity.
  - exact keep_step_shape.
  - apply sample_net_shape.
  - exact loader4_width.
  - simpl; lia.
  - discriminate.
  - simpl; lia.
Defined.

Lemma train_model_empty_witness :
  (∀ epoch n, no_shuffle epoch n ≡ₚ seq 0 n)
  ∧ dataset loader0 = [] ∧ 0 < batch_size loader0 ∧ 0 < 20
  ∧ train_model zero_loss keep_step no_shuffle loader0 ((), sample_net 2) 20
    = Raise ZeroDivisionError.
Proof.
  split; [reflexivity|]. split; [reflexivity|]. split; [simpl; lia|].
  split; [lia|].
  apply (train_model_empty zero_loss keep_step no_shuffle).
  - reflexivity.
  - reflexivity.
  - simpl; lia.
  - lia.
Defined.

Lemma evaluate_single_row_batch_witness :
  init_shape 2 (sample_net 2) ∧ rows_width 2 loader3
  ∧ seq 0 3 ≡ₚ seq 0 (length (dataset loader3))
  ∧ 2 ≤ batch_size loader3
  ∧ length (dataset loader3) mod batch_size loader3 = 1
  ∧ evaluate_model_with_metrics echo_metrics (sample_net 2) (seq 0 3) loader3
    = Raise TypeError.
Proof.
  split; [apply sample_net_shape|]. split; [exact loader3_width|].
  split; [reflexivity|]. split; [simpl; lia|]. split; [reflexivity|].
  apply (evaluate_single_row_batch echo_metrics 2).
  - apply sample_net_shape.
  - exact loader3_width.
  - reflexivity.
  - simpl; lia.
  - reflexivity.
Defined.

Lemma evaluate_aligned_witness :
  init_shape 2 (sample_net 2) ∧ rows_width 2 loader4
  ∧ seq 0 4 ≡ₚ seq 0 (length (dataset loader4))
  ∧ 2 ≤ batch_size loader4
  ∧ length (dataset loader4) mod batch_size loader4 ≠ 1
  ∧ let rows := omap (dataset loader4 !!.) (seq 0 4) in
    let B := batches (batch_size loader4) rows in
    ∃ outs : list (list R),
      evaluate_model_with_metrics echo_metrics (sample_net 2) (seq 0 4) loader4
      = echo_metrics (mjoin ((λ b, b.*2) <$> B)) (mjoin outs)
      ∧ Forall2 (λ b out, ∃ o, forward false (sample_net 2) b.*1 = Ok o
                               ∧ squeeze o = Vector out
                               ∧ length out = length b) B outs
      ∧ mjoin B = rows ∧ rows ≡ₚ dataset loader4
      ∧ length (mjoin outs) = length (mjoin ((λ b, b.*2) <$> B)).
Proof.
  split; [apply sample_net_shape|]. split; [exact loader4_width|].
  split; [reflexivity|]. split; [simpl; lia|]. split; [simpl; lia|].
  apply (evaluate_aligned echo_metrics 2).
  - apply sample_net_shape.
  - exact loader4_width.
  - reflexivity.
  - simpl; lia.
  - simpl; lia.
Defined.

Lemma iter_loader_pass_witness :
  seq 0 3 ≡ₚ seq 0 (length (dataset loader3)) ∧ 0 < batch_size loader3
  ∧ ∃ B : list (list (row * R)),
      iter_loader (seq 0 3) loader3
      = Ok ((λ b : list (row * R), (b.*1, b.*2)) <$> B)
      ∧ mjoin B ≡ₚ dataset loader3
      ∧ length B = n_batches (length (dataset loader3)) (batch_size loader3)
      ∧ Forall (λ b, 0 < length b ≤ batch_size loader3) B
      ∧ ∀ k b, B !! k = Some b → S k < length B → length b = batch_size loader3.
Proof.
  split; [reflexivity|]. split; [simpl; lia|].
  apply (iter_loader_pass (seq 0 3) loader3).
  - reflexivity.
  - simpl; lia.
Defined.

Example encode_df_pair :
  encode_sequences elements df_pair = Ok df_pair_encoded.
Proof. by vm_compute. Qed.

Example split_df_pair :
  train_test_split_proteins (seq 0) df_pair_encoded false
  = Ok ([(0, enc_pair)], [(1, enc_pair)]).
Proof. by vm_compute. Qed.

Lemma pipeline_loaders_witness :
  (∀ n, seq 0 n ≡ₚ seq 0 n)
  ∧ NoDup (index df_pair)
  ∧ encode_sequences elements df_pair = Ok df_pair_encoded
  ∧ train_test_split_proteins (seq 0) df_pair_encoded false
    = Ok ([(0, enc_pair)], [(1, enc_pair)])
  ∧ [(0, enc_pair)] ≠ [] ∧ [(1, enc_pair)] ≠ [] ∧ 0 < 32
  ∧ ∃ L_seq L_smi train_loader test_loader,
      is_max (len <$> column Sequence df_pair) L_seq
      ∧ is_max (len <$> column SMILES df_pair) L_smi
      ∧ prepare_dataloader [(0, enc_pair)] 32 = Ok train_loader
      ∧ prepare_dataloader [(1, enc_pair)] 32 = Ok test_loader
      ∧ rows_width (L_smi + L_seq) train_loader
      ∧ rows_width (L_smi + L_seq) test_loader
      ∧ batch_size train_loader = 32 ∧ batch_size test_loader = 32
      ∧ (length (dataset train_loader) + length (dataset test_loader))%nat
        = length df_pair.
Proof.
  assert (Hnd : NoDup (index df_pair)).
  { apply (bool_decide_unpack _). vm_compute. exact I. }
  split; [reflexivity|]. split; [exact Hnd|].
  split; [vm_compute; reflexivity|]. split; [vm_compute; reflexivity|].
  split; [discriminate|]. split; [discriminate|]. split; [lia|].
  apply (pipeline_loaders elements (seq 0)) with (df' := df_pair_encoded)
                                                 (new_proteins := false).
  - reflexivity.
  - exact Hnd.
  - vm_compute. reflexivity.
  - vm_compute. reflexivity.
  - discriminate.
  - discriminate.
  - lia.
Defined.

End PipelineWitnesses.
